(** * excelJson: the cleaning rules and the SQL generator

    A shallow embedding of the helper functions of [excelJson.py]
    ([clean_data], [sanitize_name], [map_dtype_to_sql], [generate_sql]), of
    the parts of the page that use them (the preview, the download names,
    the row statistics, the start button), and the properties the
    specification states about them.

    Tables follow pandas 2: [astype(str)] writes the text of every cell, a
    missing one included.

    Text is a list of characters.  A character is a code point below 256;
    the character classes follow Python 3 on that range ([str.isspace],
    [str.isdigit], the regular expression classes [\w] and [\s],
    [str.lower]).  Statements that need more than that are restricted to
    ASCII text. *)

From Stdlib Require Import Ascii String DecimalString.
From Stdlib Require Import List ZArith Bool Arith Lia.
Import ListNotations.

Open Scope string_scope.
Open Scope list_scope.

(** ** Python text *)

Definition str := list ascii.

Definition lit (s : string) : list ascii := list_ascii_of_string s.
Coercion lit : string >-> list.

Definition code (c : ascii) : nat := nat_of_ascii c.

Definition between (lo hi n : nat) : bool := Nat.leb lo n && Nat.leb n hi.

Definition is_ascii_char (c : ascii) : bool := Nat.ltb (code c) 128.

Definition is_ascii (s : str) : bool := forallb is_ascii_char s.

(** [str.isspace], also the class [\s] of a text pattern. *)
Definition isspace (c : ascii) : bool :=
  let n := code c in
  between 9 13 n || between 28 32 n || Nat.eqb n 133 || Nat.eqb n 160.

(** [str.isdigit] of one character. *)
Definition isdigit (c : ascii) : bool :=
  let n := code c in
  between 48 57 n || Nat.eqb n 178 || Nat.eqb n 179 || Nat.eqb n 185.

(** [str.isalnum] of one character. *)
Definition isalnum (c : ascii) : bool :=
  let n := code c in
  between 48 57 n || between 65 90 n || between 97 122 n
  || Nat.eqb n 170 || Nat.eqb n 178 || Nat.eqb n 179 || Nat.eqb n 181
  || Nat.eqb n 185 || Nat.eqb n 186 || between 188 190 n
  || between 192 214 n || between 216 246 n || between 248 255 n.

Definition underscore : ascii := "_"%char.

Definition is_underscore (c : ascii) : bool := Ascii.eqb c underscore.

(** The class [\w] of a text pattern. *)
Definition is_word (c : ascii) : bool := isalnum c || is_underscore c.

(** [str.lower] of one character. *)
Definition lower_char (c : ascii) : ascii :=
  let n := code c in
  if between 65 90 n || between 192 214 n || between 216 222 n
  then ascii_of_nat (n + 32) else c.

Definition lower (s : str) : str := map lower_char s.

Arguments isspace : simpl never.
Arguments isdigit : simpl never.
Arguments isalnum : simpl never.
Arguments is_word : simpl never.
Arguments is_underscore : simpl never.
Arguments is_ascii_char : simpl never.
Arguments lower_char : simpl never.

Fixpoint dropwhile (p : ascii -> bool) (s : str) : str :=
  match s with
  | [] => []
  | c :: s' => if p c then dropwhile p s' else s
  end.

Definition lstrip_by (p : ascii -> bool) (s : str) : str := dropwhile p s.

Definition rstrip_by (p : ascii -> bool) (s : str) : str :=
  rev (dropwhile p (rev s)).

Definition strip_by (p : ascii -> bool) (s : str) : str :=
  rstrip_by p (lstrip_by p s).

(** [s.strip()] *)
Definition strip (s : str) : str := strip_by isspace s.

(** [s.strip('_')] *)
Definition strip_underscores (s : str) : str := strip_by is_underscore s.

(** [sep.join(parts)] *)
Fixpoint join (sep : str) (parts : list str) : str :=
  match parts with
  | [] => []
  | [p] => p
  | p :: rest => p ++ sep ++ join sep rest
  end.

Fixpoint starts_with (pre s : str) : bool :=
  match pre, s with
  | [], _ => true
  | _ :: _, [] => false
  | a :: pre', b :: s' => Ascii.eqb a b && starts_with pre' s'
  end.

(** [sub in s] *)
Fixpoint contains (sub s : str) : bool :=
  starts_with sub s ||
  match s with
  | [] => false
  | _ :: s' => contains sub s'
  end.

(** [s.replace(old, new)] for a non-empty [old]: the occurrences of [old]
    are taken from left to right and do not overlap.  [skip] counts the
    characters of an occurrence that are still to be passed over. *)
Fixpoint replace_from (old new : str) (skip : nat) (s : str) : str :=
  match s with
  | [] => []
  | c :: s' =>
      match skip with
      | S k => replace_from old new k s'
      | O =>
          if starts_with old s
          then new ++ replace_from old new (length old - 1) s'
          else c :: replace_from old new 0 s'
      end
  end.

(** [s.replace(old, new)]; an empty [old] matches before every character
    and at the end. *)
Definition replace (old new s : str) : str :=
  match old with
  | [] => new ++ flat_map (fun c => c :: new) s
  | _ :: _ => replace_from old new 0 s
  end.

(** [str(n)] of an integer. *)
Definition str_of_Z (z : Z) : str := lit (NilZero.string_of_int (Z.to_int z)).

(** ** sanitize_name *)

(** [re.sub(r'[^\w]', '_', s)] *)
Definition sub_nonword (s : str) : str :=
  map (fun c => if is_word c then c else underscore) s.

(** [re.sub(r'_+', '_', s)]: [in_run] tells that the previous character
    was an underscore, already written once. *)
Fixpoint collapse_from (in_run : bool) (s : str) : str :=
  match s with
  | [] => []
  | c :: s' =>
      if is_underscore c
      then if in_run then collapse_from true s'
           else underscore :: collapse_from true s'
      else c :: collapse_from false s'
  end.

Definition collapse_underscores (s : str) : str := collapse_from false s.

Definition starts_with_digit (s : str) : bool :=
  match s with
  | [] => false
  | c :: _ => isdigit c
  end.

Definition is_empty (s : str) : bool :=
  match s with
  | [] => true
  | _ :: _ => false
  end.

(** The name after the two substitutions and the trimming of underscores,
    before the [col_] prefix is decided. *)
Definition sanitize_core (name : str) : str :=
  let name := sub_nonword (strip name) in
  strip_underscores (collapse_underscores name).

Definition sanitize_name (name : str) : str :=
  let name := sanitize_core name in
  let name :=
    if is_empty name || starts_with_digit name then "col_" ++ name else name in
  lower name.

(** ** map_dtype_to_sql *)

Fixpoint str_eqb (a b : str) : bool :=
  match a, b with
  | [], [] => true
  | x :: a', y :: b' => Ascii.eqb x y && str_eqb a' b'
  | _, _ => false
  end.

(** [dtype_str] is [str(dtype)]; [dialect] is the text the caller passes. *)
Definition map_dtype_to_sql (dtype_str dialect : str) : str :=
  if contains "int" dtype_str then
    if negb (str_eqb dialect "postgresql") then "INT" else "INTEGER"
  else if contains "float" dtype_str then
    if str_eqb dialect "mysql" then "DOUBLE"
    else if str_eqb dialect "sqlite" then "REAL"
    else "DOUBLE PRECISION"
  else if contains "bool" dtype_str then
    "BOOLEAN"
  else if contains "datetime" dtype_str then
    if negb (str_eqb dialect "postgresql") then "DATETIME" else "TIMESTAMP"
  else
    if str_eqb dialect "mysql" then "VARCHAR(255)" else "TEXT".

(** ** Cell values and tables *)

(** What a cell holds, as far as the program tells values apart: the four
    objects [pd.isna] accepts, the instances of [int] and [float] ([bool] is
    a subclass of [int]), text, and any other object (a [Timestamp], a NumPy
    integer or boolean scalar, which are instances of neither [int] nor
    [float]).  A float and an object of another class are known by their
    [str()] text. *)
Inductive value : Type :=
| NaN                       (* float('nan'), the empty cell of a sheet *)
| PyNone                    (* None *)
| NA                        (* pd.NA, what clean_data writes *)
| NaT                       (* pd.NaT, the empty cell of a date column *)
| PyInt (z : Z)
| PyFloat (text : str)      (* a float that is not nan *)
| PyBool (b : bool)
| PyStr (s : str)
| PyObject (text : str).

(** [pd.isna(val)] *)
Definition isna (v : value) : bool :=
  match v with
  | NaN | PyNone | NA | NaT => true
  | _ => false
  end.

(** [isinstance(val, (int, float))] *)
Definition isinstance_int_float (v : value) : bool :=
  match v with
  | NaN | PyInt _ | PyFloat _ | PyBool _ => true
  | _ => false
  end.

(** [str(val)], which is also what [astype(str)] puts in the cell. *)
Definition py_str (v : value) : str :=
  match v with
  | NaN => "nan"
  | PyNone => "None"
  | NA => "<NA>"
  | NaT => "NaT"
  | PyInt z => str_of_Z z
  | PyFloat text => text
  | PyBool true => "True"
  | PyBool false => "False"
  | PyStr s => s
  | PyObject text => text
  end.

(** A table: the column labels in order, [str(dtype)] of every column, and
    the rows in order, each with its index label and its cells in column
    order.  Column labels are taken to be distinct, as [read_excel] makes
    them. *)
Record DataFrame : Type := mkDataFrame {
  columns : list str;
  dtypes : list str;
  rows : list (nat * list value)
}.

Definition mem (x : str) (l : list str) : bool := existsb (str_eqb x) l.

(** ** clean_data *)

(** The patterns of the replacement table. *)
Inductive pattern : Type :=
| IgnoreCase (token : str)   (* (?i)^token$ *)
| Blank.                     (* ^\s*$ *)

Definition newline : ascii := ascii_of_nat 10.

(** [re.search(p, s)].  [$] matches at the end of the text and before a
    newline that ends it. *)
Definition re_search (p : pattern) (s : str) : bool :=
  match p with
  | IgnoreCase token =>
      str_eqb (lower s) (lower token)
      || str_eqb (lower s) (lower token ++ [newline])
  | Blank => forallb isspace s
  end.

(** The dictionary passed to [replace], in the order it is written. *)
Definition null_like_table : list (pattern * value) :=
  [ (IgnoreCase "NA", NA);
    (IgnoreCase "null", NA);
    (IgnoreCase "not available", NA);
    (IgnoreCase "nan", NA);
    (IgnoreCase "None", NA);
    (IgnoreCase "ns", NA);
    (Blank, NA) ].

(** One entry of the table applied to one cell: only text is matched. *)
Definition replace_one (v : value) (entry : pattern * value) : value :=
  match v with
  | PyStr s => if re_search (fst entry) s then snd entry else v
  | _ => v
  end.

(** [series.replace(table, regex=True)] on one cell. *)
Definition replace_regex (table : list (pattern * value)) (v : value) : value :=
  fold_left replace_one table v.

(** [astype(str).str.strip().replace({...}, regex=True)] on one cell. *)
Definition normalize_cell (v : value) : value :=
  replace_regex null_like_table (PyStr (strip (py_str v))).

(** The cells of a row under the column [col] rewritten by [f]. *)
Fixpoint map_at {A : Type} (cols : list str) (col : str) (f : A -> A)
    (cells : list A) : list A :=
  match cols, cells with
  | c :: cols', v :: cells' =>
      (if str_eqb c col then f v else v) :: map_at cols' col f cells'
  | _, _ => cells
  end.

(** [df[col] = df[col].astype(str).str.strip().replace(...)]; the column
    becomes an [object] column. *)
Definition assign_normalized (df : DataFrame) (col : str) : DataFrame :=
  {| columns := columns df;
     dtypes := map_at (columns df) col (fun _ => lit "object") (dtypes df);
     rows := map (fun r => (fst r, map_at (columns df) col normalize_cell (snd r)))
                 (rows df) |}.

(** A row has a missing cell under one of the columns of [subset]. *)
Definition has_na (cols subset : list str) (cells : list value) : bool :=
  existsb (fun cv => mem (fst cv) subset && isna (snd cv)) (combine cols cells).

(** [df.dropna(subset=subset)] *)
Definition dropna (df : DataFrame) (subset : list str) : DataFrame :=
  {| columns := columns df;
     dtypes := dtypes df;
     rows := filter (fun r => negb (has_na (columns df) subset (snd r))) (rows df) |}.

Definition clean_step (df : DataFrame) (col : str) : DataFrame :=
  if mem col (columns df) then assign_normalized df col else df.

Definition clean_data (df : DataFrame) (selected_cols : list str) : DataFrame :=
  let df_clean := df in
  match selected_cols with
  | [] => df_clean
  | _ :: _ =>
      let df_clean := fold_left clean_step selected_cols df_clean in
      dropna df_clean
        (filter (fun col => mem col (columns df_clean)) selected_cols)
  end.

(** ** generate_sql *)

Definition quote : ascii := "'"%char.

(** The text one cell contributes to the [VALUES] list. *)
Definition sql_value (val : value) : str :=
  if isna val then "NULL"
  else if isinstance_int_float val then py_str val
  else
    let escaped := replace [quote] [quote; quote] (py_str val) in
    [quote] ++ escaped ++ [quote].

(** The inner loop: one value per column, appended in column order. *)
Definition row_values (cols : list str) (cells : list value) : list str :=
  fold_left (fun values cv => values ++ [sql_value (snd cv)])
            (combine cols cells) [].

Definition insert_stmt (table_name col_names : str) (cols : list str)
    (cells : list value) : str :=
  let vals_str := join ", " (row_values cols cells) in
  "INSERT INTO " ++ table_name ++ " (" ++ col_names ++ ") VALUES ("
    ++ vals_str ++ ");".

(** The dtype of [df.values], the array from which [df.iterrows()] makes
    its rows, for the dtypes [read_excel] gives (int64, float64, bool,
    datetime64[ns], object): the dtype the columns share, float64 for
    int64 next to float64, and object for any other mixture. *)
Inductive values_dtype : Type :=
| ValuesInt64 | ValuesBool | ValuesFloat64 | ValuesObject.

Definition common_dtype (dts : list str) : values_dtype :=
  if forallb (str_eqb "int64") dts then ValuesInt64
  else if forallb (str_eqb "bool") dts then ValuesBool
  else if forallb (fun d => str_eqb d "int64" || str_eqb d "float64") dts
  then ValuesFloat64
  else ValuesObject.

(** [str(float(z))] for an integer that a float holds exactly,
    [|z| <= 2^53]; beyond that the float is rounded and written with an
    exponent, which is not described here. *)
Definition float_str (z : Z) : str := str_of_Z z ++ ".0".

(** What [row[col]] is for a stored cell.  In an int64 array it is a
    [numpy.int64] and in a bool array a [numpy.bool_], neither an instance
    of [int]; in a float64 array an integer has become a float; in an
    object array the cell is the Python object itself. *)
Definition row_cell (dt : values_dtype) (v : value) : value :=
  match dt, v with
  | ValuesInt64, PyInt z => PyObject (str_of_Z z)
  | ValuesBool, PyBool b => PyObject (if b then lit "True" else lit "False")
  | ValuesFloat64, PyInt z => PyFloat (float_str z)
  | _, _ => v
  end.

(** [df.iterrows()]: the rows in order, each with its label. *)
Definition iterrows (df : DataFrame) : list (nat * list value) :=
  map (fun r => (fst r, map (row_cell (common_dtype (dtypes df))) (snd r)))
      (rows df).

(** The list [insert_stmts] when the loop over the rows ends. *)
Definition insert_stmts (df : DataFrame) (table_name : str) : list str :=
  let table_name := sanitize_name table_name in
  let col_names := join ", " (map sanitize_name (columns df)) in
  fold_left (fun stmts r =>
               stmts ++ [insert_stmt table_name col_names (columns df) (snd r)])
            (iterrows df) [].

Definition col_defs (df : DataFrame) (dialect : str) : list str :=
  fold_left (fun defs cd =>
               defs ++ ["    " ++ sanitize_name (fst cd) ++ " "
                          ++ map_dtype_to_sql (snd cd) dialect])
            (combine (columns df) (dtypes df)) [].

Definition create_stmt (df : DataFrame) (table_name dialect : str) : str :=
  "CREATE TABLE IF NOT EXISTS " ++ sanitize_name table_name ++ [" "%char; "("%char; newline]
    ++ join ([","%char; newline]) (col_defs df dialect)
    ++ [newline; ")"%char; ";"%char; newline].

Definition generate_sql (df : DataFrame) (table_name dialect : str) : str * str :=
  (create_stmt df table_name dialect,
   join [newline] (insert_stmts df table_name)).

(** ** What the specification compares the code with *)

(** The pattern [^[a-z_][a-z0-9_]*$] of a valid identifier. *)
Definition ident_start (c : ascii) : bool :=
  between 97 122 (code c) || is_underscore c.

Definition ident_char (c : ascii) : bool :=
  between 97 122 (code c) || between 48 57 (code c) || is_underscore c.

Arguments ident_start : simpl never.
Arguments ident_char : simpl never.

Definition ident_shape (s : str) : bool :=
  match s with
  | [] => false
  | c :: s' => ident_start c && forallb ident_char s'
  end.

(** ** Shapes of names *)

Definition head_ok (p : ascii -> bool) (s : str) : bool :=
  match s with
  | [] => true
  | c :: _ => negb (p c)
  end.

Definition last_ok (p : ascii -> bool) (s : str) : bool := head_ok p (rev s).

Fixpoint no_double (s : str) : bool :=
  match s with
  | c :: (d :: _) as s' => negb (is_underscore c && is_underscore d) && no_double s'
  | _ => true
  end.

(** The name with its prefix, before lower-casing. *)
Definition prefixed (core : str) : str :=
  if is_empty core || starts_with_digit core then "col_" ++ core else core.

(** The five semantic types of a column with the name pandas gives their
    dtype, and the three dialects with the text the caller passes. *)
Inductive semantic_type : Type :=
| Integer | Floating | Boolean | Timestamp | Text.

Inductive sql_dialect : Type := MySQL | PostgreSQL | SQLite.

Definition dtype_name (t : semantic_type) : str :=
  match t with
  | Integer => "int64"
  | Floating => "float64"
  | Boolean => "bool"
  | Timestamp => "datetime64[ns]"
  | Text => "object"
  end.

Definition dialect_name (d : sql_dialect) : str :=
  match d with
  | MySQL => "mysql"
  | PostgreSQL => "postgresql"
  | SQLite => "sqlite"
  end.

(** The lookup table of the specification, row by row. *)
Definition type_table (t : semantic_type) (d : sql_dialect) : str :=
  match t, d with
  | Integer, MySQL => "INT"
  | Integer, PostgreSQL => "INTEGER"
  | Integer, SQLite => "INT"
  | Floating, MySQL => "DOUBLE"
  | Floating, PostgreSQL => "DOUBLE PRECISION"
  | Floating, SQLite => "REAL"
  | Boolean, _ => "BOOLEAN"
  | Timestamp, MySQL => "DATETIME"
  | Timestamp, PostgreSQL => "TIMESTAMP"
  | Timestamp, SQLite => "DATETIME"
  | Text, MySQL => "VARCHAR(255)"
  | Text, PostgreSQL => "TEXT"
  | Text, SQLite => "TEXT"
  end.

(** A dtype name in which [map_dtype_to_sql] finds none of its keywords. *)
Definition unrecognized (dtype_str : str) : bool :=
  negb (contains "int" dtype_str) && negb (contains "float" dtype_str)
  && negb (contains "bool" dtype_str) && negb (contains "datetime" dtype_str).

(** Un-escaping: every doubled quote becomes one quote. *)
Definition unescape (s : str) : str := replace [quote; quote] [quote] s.

(** Every quote written twice, character by character. *)
Definition double_quotes (s : str) : str :=
  flat_map (fun c => if Ascii.eqb c quote then [quote; quote] else [c]) s.

(** The text the specification gives one cell in a [VALUES] list. *)
Definition cell_text (v : value) : str :=
  if isna v then "NULL"
  else if isinstance_int_float v then py_str v
  else [quote] ++ double_quotes (py_str v) ++ [quote].

(** The statement the specification gives one row. *)
Definition insert_text (table_name : str) (cols : list str)
    (cells : list value) : str :=
  "INSERT INTO " ++ sanitize_name table_name
    ++ " (" ++ join ", " (map sanitize_name cols)
    ++ ") VALUES (" ++ join ", " (map cell_text cells) ++ ");".

(** A stripped text matches an entry of the replacement table. *)
Definition null_like (s : str) : bool :=
  existsb (fun e => re_search (fst e) s) null_like_table.

(** The null-like tokens of the specification. *)
Definition null_tokens : list str :=
  [lit "NA"; lit "null"; lit "not available"; lit "nan"; lit "none"; lit "ns"].

(** The text equals a token, case-insensitively, after stripping. *)
Definition is_null_token (t : str) : bool :=
  existsb (fun token => str_eqb (lower (strip t)) (lower token)) null_tokens.

(** The text is empty or holds only whitespace. *)
Definition is_blank (t : str) : bool := forallb isspace t.

Definition null_like_text (t : str) : bool := is_null_token t || is_blank t.

(** A row holds null-like text under a selected column. *)
Definition row_is_null_like (cols selected : list str) (cells : list value) : bool :=
  existsb (fun cv => mem (fst cv) selected && null_like_text (py_str (snd cv)))
          (combine cols cells).

(** The cells of a row rewritten column by column. *)
Fixpoint map_cols {A : Type} (g : str -> A -> A) (cols : list str)
    (cells : list A) : list A :=
  match cols, cells with
  | c :: cols', v :: cells' => g c v :: map_cols g cols' cells'
  | _, _ => cells
  end.

(** What the loop over the selection makes of the cell [v] of column [c]. *)
Definition cell_after (selected : list str) (c : str) (v : value) : value :=
  fold_left (fun v col => if str_eqb c col then normalize_cell v else v)
            selected v.

Definition labels (df : DataFrame) : list nat := map fst (rows df).

(** ** Sample tables *)

(** The table of the scenario of the specification. *)
Definition people : DataFrame :=
  {| columns := [lit "Name"; lit "Age"];
     dtypes := [lit "object"; lit "object"];
     rows := [(0, [PyStr "Alice"; PyStr "NA"]);
              (1, [PyStr "Bob"; PyStr "30"])] |}.

(** A sheet of whole numbers only. *)
Definition scores : DataFrame :=
  {| columns := [lit "A"; lit "B"];
     dtypes := [lit "int64"; lit "int64"];
     rows := [(0, [PyInt 1; PyInt 3])] |}.

(** A sheet of whole numbers next to decimal numbers. *)
Definition measures : DataFrame :=
  {| columns := [lit "N"; lit "X"];
     dtypes := [lit "int64"; lit "float64"];
     rows := [(0, [PyInt 1; PyFloat "2.5"])] |}.

(** A sheet of booleans only. *)
Definition flags : DataFrame :=
  {| columns := [lit "Active"];
     dtypes := [lit "bool"];
     rows := [(0, [PyBool true]); (1, [PyBool false])] |}.

(** A sheet with a date column in which one cell is empty. *)
Definition members : DataFrame :=
  {| columns := [lit "Name"; lit "Joined"];
     dtypes := [lit "object"; lit "datetime64[ns]"];
     rows := [(0, [PyStr "Ann"; PyObject "2024-01-05"]);
              (1, [PyStr "Bob"; NaT])] |}.

(** ** The preview of the page *)

(** [df.head(n)] for a count [n] that is not negative. *)
Definition head (n : nat) (df : DataFrame) : DataFrame :=
  {| columns := columns df; dtypes := dtypes df; rows := firstn n (rows df) |}.

(** [preview_df = cleaned_df.head(10)] *)
Definition preview_df (cleaned_df : DataFrame) : DataFrame := head 10 cleaned_df.

(** [full_sql = create_stmt + "\n" + insert_stmts], also for the preview. *)
Definition full_sql (df : DataFrame) (table_name dialect : str) : str :=
  let result := generate_sql df table_name dialect in
  fst result ++ [newline] ++ snd result.

(** The row of the lookup table that [map_dtype_to_sql] takes for a dtype
    name: the first keyword found, in the order of its tests. *)
Definition keyword_row (dtype_str : str) : semantic_type :=
  if contains "int" dtype_str then Integer
  else if contains "float" dtype_str then Floating
  else if contains "bool" dtype_str then Boolean
  else if contains "datetime" dtype_str then Timestamp
  else Text.

(** The cells of a kept row as the specification describes them: the
    stripped text under a selected column, the cell itself elsewhere. *)
Definition normalized_row (cols selected : list str) (cells : list value)
    : list value :=
  map_cols (fun c v => if mem c selected then PyStr (strip (py_str v)) else v)
           cols cells.

(** What the loop over the selection makes of the dtype [d] of column [c]. *)
Definition dtype_after (selected : list str) (c : str) (d : str) : str :=
  fold_left (fun d col => if str_eqb c col then lit "object" else d) selected d.

(** ** The page around the helpers *)

Definition dot : ascii := "."%char.

(** The first part of [s.rsplit('.', 1)] when [s] has a dot: the text
    before the last dot. *)
Fixpoint before_last_dot (s : str) : option str :=
  match s with
  | [] => None
  | c :: s' =>
      match before_last_dot s' with
      | Some h => Some (c :: h)
      | None => if Ascii.eqb c dot then Some [] else None
      end
  end.

(** [file_label = uploaded_file.name.rsplit('.', 1)[0]] *)
Definition file_label (name : str) : str :=
  match before_last_dot name with
  | Some h => h
  | None => name
  end.

(** [sheet_suffix = f"_{selected_sheet}" if len(sheet_names) > 1 else ""] *)
Definition sheet_suffix (sheet_names : list str) (selected_sheet : str) : str :=
  if Nat.ltb 1 (length sheet_names) then "_" ++ selected_sheet else [].

Definition json_file_name (name : str) (sheet_names : list str)
    (selected_sheet : str) : str :=
  file_label name ++ sheet_suffix sheet_names selected_sheet ++ "_cleaned.json".

Definition sql_file_name (name : str) (sheet_names : list str)
    (selected_sheet : str) : str :=
  file_label name ++ sheet_suffix sheet_names selected_sheet ++ ".sql".

Definition no_dot (s : str) : bool := forallb (fun c => negb (Ascii.eqb c dot)) s.

(** [rows_dropped = len(original_df) - len(cleaned_df)] *)
Definition rows_dropped (original_df cleaned_df : DataFrame) : Z :=
  Z.of_nat (length (rows original_df)) - Z.of_nat (length (rows cleaned_df)).

(** The warning about removed rows is shown. *)
Definition warns (original_df cleaned_df : DataFrame) : bool :=
  Z.ltb 0 (rows_dropped original_df cleaned_df).

(** The two entries of the session state that gate the processing. *)
Record session_state : Type := mkSession {
  process_started : bool;
  process_sheet : option str
}.

Definition new_session : session_state :=
  {| process_started := false; process_sheet := None |}.

(** One run of the script with a workbook loaded: the button sets both
    entries; the processing runs when the flag is set and the stored sheet
    is the selected one. *)
Definition rerun (st : session_state) (clicked : bool) (selected_sheet : str)
    : session_state * bool :=
  let st :=
    if clicked
    then {| process_started := true; process_sheet := Some selected_sheet |}
    else st in
  (st,
   process_started st &&
   match process_sheet st with
   | Some sheet => str_eqb sheet selected_sheet
   | None => false
   end).

(** The state after a sequence of runs, each with its click and sheet. *)
Definition run (st : session_state) (inputs : list (bool * str)) : session_state :=
  fold_left (fun st input => fst (rerun st (fst input) (snd input))) inputs st.

(** The sheet of the last run in which the button was pressed. *)
Definition last_click (inputs : list (bool * str)) : option str :=
  fold_left (fun (last : option str) (input : bool * str) =>
               if fst input then Some (snd input) else last)
            inputs None.

(** * Properties *)

(** ** Characters *)

Ltac each_char c :=
  destruct c as [[] [] [] [] [] [] [] []]; vm_compute; intros;
  try reflexivity; try discriminate; try congruence.

Lemma lower_char_idem (c : ascii) : lower_char (lower_char c) = lower_char c.
Proof. each_char c. Qed.

Lemma is_underscore_lower (c : ascii) :
  is_underscore (lower_char c) = is_underscore c.
Proof. each_char c. Qed.

Lemma isdigit_lower (c : ascii) : isdigit (lower_char c) = isdigit c.
Proof. each_char c. Qed.

Lemma is_word_lower (c : ascii) : is_word (lower_char c) = is_word c.
Proof. each_char c. Qed.

Lemma is_ascii_lower (c : ascii) :
  is_ascii_char (lower_char c) = is_ascii_char c.
Proof. each_char c. Qed.

Lemma word_not_space (c : ascii) : is_word c = true -> isspace c = false.
Proof. each_char c. Qed.

Lemma ascii_word_ident (c : ascii) :
  is_ascii_char c = true -> is_word c = true -> lower_char c = c ->
  ident_char c = true.
Proof. each_char c. Qed.

Lemma ascii_word_ident_start (c : ascii) :
  is_ascii_char c = true -> is_word c = true -> lower_char c = c ->
  isdigit c = false -> ident_start c = true.
Proof. each_char c. Qed.

Lemma is_underscore_true (c : ascii) : is_underscore c = true -> c = underscore.
Proof. unfold is_underscore. intros H. now apply Ascii.eqb_eq. Qed.

(** ** Trimming *)

Lemma dropwhile_split (p : ascii -> bool) (s : str) :
  exists t, s = t ++ dropwhile p s /\ forallb p t = true.
Proof.
  induction s as [|c s IH]; simpl.
  - exists []. auto.
  - destruct (p c) eqn:E.
    + destruct IH as [t [H1 H2]]. exists (c :: t). simpl.
      rewrite E, H2. split; [now f_equal | reflexivity].
    + exists []. auto.
Qed.

Lemma dropwhile_head_ok (p : ascii -> bool) (s : str) :
  head_ok p (dropwhile p s) = true.
Proof.
  induction s as [|c s IH]; simpl; trivial.
  destruct (p c) eqn:E; trivial. simpl. now rewrite E.
Qed.

Lemma dropwhile_fix (p : ascii -> bool) (s : str) :
  head_ok p s = true -> dropwhile p s = s.
Proof.
  destruct s as [|c s]; simpl; trivial.
  destruct (p c); simpl; [discriminate | trivial].
Qed.

Lemma rstrip_split (p : ascii -> bool) (s : str) :
  exists t, s = rstrip_by p s ++ t /\ forallb p t = true.
Proof.
  unfold rstrip_by.
  destruct (dropwhile_split p (rev s)) as [t [H1 H2]].
  exists (rev t). split.
  - rewrite <- rev_app_distr, <- H1. now rewrite rev_involutive.
  - rewrite forallb_forall in *. intros c Hc. apply H2. now apply in_rev.
Qed.

Lemma rstrip_last_ok (p : ascii -> bool) (s : str) :
  last_ok p (rstrip_by p s) = true.
Proof.
  unfold last_ok, rstrip_by. rewrite rev_involutive. apply dropwhile_head_ok.
Qed.

Lemma rstrip_fix (p : ascii -> bool) (s : str) :
  last_ok p s = true -> rstrip_by p s = s.
Proof.
  unfold last_ok, rstrip_by. intros H.
  rewrite dropwhile_fix by assumption. apply rev_involutive.
Qed.

Lemma head_ok_prefix (p : ascii -> bool) (a b : str) :
  head_ok p (a ++ b) = true -> head_ok p a = true.
Proof. destruct a; simpl; auto. Qed.

Lemma rstrip_head_ok (p : ascii -> bool) (s : str) :
  head_ok p s = true -> head_ok p (rstrip_by p s) = true.
Proof.
  destruct (rstrip_split p s) as [t [H _]]. intros Hs.
  rewrite H in Hs. now apply head_ok_prefix in Hs.
Qed.

Lemma strip_by_head_ok (p : ascii -> bool) (s : str) :
  head_ok p (strip_by p s) = true.
Proof. apply rstrip_head_ok, dropwhile_head_ok. Qed.

Lemma strip_by_last_ok (p : ascii -> bool) (s : str) :
  last_ok p (strip_by p s) = true.
Proof. apply rstrip_last_ok. Qed.

Lemma strip_by_fix (p : ascii -> bool) (s : str) :
  head_ok p s = true -> last_ok p s = true -> strip_by p s = s.
Proof.
  intros H1 H2. unfold strip_by, lstrip_by.
  rewrite dropwhile_fix by assumption. now apply rstrip_fix.
Qed.

Lemma strip_by_idem (p : ascii -> bool) (s : str) :
  strip_by p (strip_by p s) = strip_by p s.
Proof. apply strip_by_fix; [apply strip_by_head_ok | apply strip_by_last_ok]. Qed.

Lemma forallb_dropwhile (q p : ascii -> bool) (s : str) :
  forallb q s = true -> forallb q (dropwhile p s) = true.
Proof.
  destruct (dropwhile_split p s) as [t [H _]]. intros Hq.
  rewrite H, forallb_app in Hq. now apply andb_true_iff in Hq.
Qed.

Lemma forallb_rstrip (q p : ascii -> bool) (s : str) :
  forallb q s = true -> forallb q (rstrip_by p s) = true.
Proof.
  destruct (rstrip_split p s) as [t [H _]]. intros Hq.
  rewrite H, forallb_app in Hq. now apply andb_true_iff in Hq.
Qed.

Lemma forallb_strip_by (q p : ascii -> bool) (s : str) :
  forallb q s = true -> forallb q (strip_by p s) = true.
Proof. intros H. now apply forallb_rstrip, forallb_dropwhile. Qed.

(** ** Runs of underscores *)

Lemma no_double_app (a b : str) :
  no_double (a ++ b) = true -> no_double a = true /\ no_double b = true.
Proof.
  induction a as [|c a IH]; simpl app; intros H.
  - split; [reflexivity | assumption].
  - destruct a as [|d a].
    + split; [reflexivity|]. simpl in H. destruct b; trivial.
      now apply andb_true_iff in H.
    + change (negb (is_underscore c && is_underscore d)
              && no_double ((d :: a) ++ b) = true) in H.
      apply andb_true_iff in H. destruct H as [H1 H2].
      destruct (IH H2) as [Ha Hb]. split; trivial.
      change (negb (is_underscore c && is_underscore d)
              && no_double (d :: a) = true).
      now rewrite H1, Ha.
Qed.

Lemma no_double_cons (c : ascii) (s : str) :
  no_double s = true ->
  (is_underscore c = true -> head_ok is_underscore s = true) ->
  no_double (c :: s) = true.
Proof.
  intros Hs Hc. destruct s as [|d s]; trivial.
  change (negb (is_underscore c && is_underscore d) && no_double (d :: s) = true).
  rewrite Hs, andb_true_r. destruct (is_underscore c); trivial.
  simpl in Hc. specialize (Hc eq_refl). simpl. assumption.
Qed.

Lemma collapse_from_shape (s : str) (in_run : bool) :
  no_double (collapse_from in_run s) = true /\
  (in_run = true -> head_ok is_underscore (collapse_from in_run s) = true).
Proof.
  revert in_run. induction s as [|c s IH]; intros in_run; simpl.
  - auto.
  - destruct (is_underscore c) eqn:E.
    + destruct in_run.
      * apply IH.
      * split; [|discriminate]. apply no_double_cons.
        -- apply IH.
        -- intros _. now apply IH.
    + split.
      * apply no_double_cons; [apply IH|]. intros H.
        rewrite E in H. discriminate.
      * intros _. simpl. now rewrite E.
Qed.

Lemma collapse_from_fix (s : str) :
  no_double s = true ->
  collapse_from false s = s /\
  (head_ok is_underscore s = true -> collapse_from true s = s).
Proof.
  induction s as [|c s IH]; intros H; simpl.
  - auto.
  - assert (Hs : no_double s = true).
    { apply (no_double_app [c] s H). }
    destruct (IH Hs) as [IH1 IH2].
    destruct (is_underscore c) eqn:E.
    + split; [|simpl; discriminate].
      rewrite (is_underscore_true c E) in *. f_equal. apply IH2.
      destruct s as [|d s]; trivial. simpl.
      change (negb (is_underscore underscore && is_underscore d)
              && no_double (d :: s) = true) in H.
      apply andb_true_iff in H. destruct H as [H _].
      destruct (is_underscore d); [discriminate H | reflexivity].
    + split; intros; now f_equal.
Qed.

Lemma collapse_from_incl (s : str) (in_run : bool) (c : ascii) :
  In c (collapse_from in_run s) -> In c s.
Proof.
  revert in_run. induction s as [|d s IH]; intros in_run; simpl; trivial.
  destruct (is_underscore d) eqn:E.
  - destruct in_run.
    + intros H. right. now apply IH in H.
    + intros [H | H].
      * left. rewrite <- H. now apply is_underscore_true.
      * right. now apply IH in H.
  - intros [H | H]; [now left | right; now apply IH in H].
Qed.

Lemma forallb_collapse (q : ascii -> bool) (s : str) :
  forallb q s = true -> forallb q (collapse_underscores s) = true.
Proof.
  rewrite !forallb_forall. intros H c Hc.
  apply H. now apply collapse_from_incl in Hc.
Qed.

(** ** Lower-casing keeps the shape of a name *)

Lemma forallb_lower (q : ascii -> bool) (s : str) :
  (forall c, q (lower_char c) = q c) -> forallb q (lower s) = forallb q s.
Proof.
  intros H. induction s as [|c s IH]; simpl; trivial. now rewrite H, IH.
Qed.

Lemma head_ok_lower (q : ascii -> bool) (s : str) :
  (forall c, q (lower_char c) = q c) -> head_ok q (lower s) = head_ok q s.
Proof. intros H. destruct s; simpl; trivial. now rewrite H. Qed.

Lemma last_ok_lower (q : ascii -> bool) (s : str) :
  (forall c, q (lower_char c) = q c) -> last_ok q (lower s) = last_ok q s.
Proof.
  intros H. unfold last_ok, lower. rewrite <- map_rev.
  now apply head_ok_lower.
Qed.

Lemma no_double_lower (s : str) : no_double (lower s) = no_double s.
Proof.
  induction s as [|c s IH]; trivial.
  destruct s as [|d s]; trivial.
  change (negb (is_underscore (lower_char c) && is_underscore (lower_char d))
          && no_double (lower (d :: s))
          = negb (is_underscore c && is_underscore d) && no_double (d :: s)).
  now rewrite IH, !is_underscore_lower.
Qed.

Lemma lower_idem (s : str) : lower (lower s) = lower s.
Proof.
  unfold lower. rewrite map_map. apply map_ext. apply lower_char_idem.
Qed.

Lemma lower_fix_chars (s : str) :
  lower s = s -> forall c, In c s -> lower_char c = c.
Proof.
  induction s as [|d s IH]; simpl; intros H c Hc; [contradiction|].
  injection H as H1 H2. destruct Hc as [<- | Hc]; auto.
Qed.

(** ** The name before the prefix is decided *)

Lemma is_word_underscore : is_word underscore = true.
Proof. vm_compute. reflexivity. Qed.

Lemma is_ascii_underscore : is_ascii_char underscore = true.
Proof. vm_compute. reflexivity. Qed.

Lemma sub_nonword_word (s : str) : forallb is_word (sub_nonword s) = true.
Proof.
  induction s as [|c s IH]; [reflexivity|].
  change (is_word (if is_word c then c else underscore)
          && forallb is_word (sub_nonword s) = true).
  rewrite IH, andb_true_r.
  destruct (is_word c) eqn:E; [exact E | exact is_word_underscore].
Qed.

Lemma sub_nonword_fix (s : str) : forallb is_word s = true -> sub_nonword s = s.
Proof.
  induction s as [|c s IH]; simpl; trivial. intros H.
  apply andb_true_iff in H. destruct H as [H1 H2].
  now rewrite H1, IH.
Qed.

Lemma sub_nonword_ascii (s : str) :
  is_ascii s = true -> is_ascii (sub_nonword s) = true.
Proof.
  unfold is_ascii. induction s as [|c s IH]; [reflexivity|].
  change (is_ascii_char c && forallb is_ascii_char s = true ->
          is_ascii_char (if is_word c then c else underscore)
          && forallb is_ascii_char (sub_nonword s) = true).
  intros H. apply andb_true_iff in H. destruct H as [H1 H2].
  rewrite IH, andb_true_r by assumption.
  destruct (is_word c); [exact H1 | exact is_ascii_underscore].
Qed.

Lemma sanitize_core_word (x : str) : forallb is_word (sanitize_core x) = true.
Proof.
  unfold sanitize_core, strip_underscores.
  apply forallb_strip_by, forallb_collapse, sub_nonword_word.
Qed.

Lemma sanitize_core_no_double (x : str) : no_double (sanitize_core x) = true.
Proof.
  unfold sanitize_core, strip_underscores, strip_by, lstrip_by.
  set (t := collapse_underscores _).
  assert (Ht : no_double t = true) by apply collapse_from_shape.
  destruct (dropwhile_split is_underscore t) as [a [Ha _]].
  rewrite Ha in Ht. apply no_double_app in Ht. destruct Ht as [_ Ht].
  destruct (rstrip_split is_underscore (dropwhile is_underscore t)) as [b [Hb _]].
  rewrite Hb in Ht. now apply no_double_app in Ht.
Qed.

Lemma sanitize_core_ascii (x : str) :
  is_ascii x = true -> is_ascii (sanitize_core x) = true.
Proof.
  intros H. unfold sanitize_core, strip_underscores, is_ascii.
  apply forallb_strip_by, forallb_collapse.
  apply sub_nonword_ascii. unfold strip. now apply forallb_strip_by.
Qed.

(** ** Names that sanitize_name leaves alone *)

Lemma head_ok_app_left (p : ascii -> bool) (a b : str) :
  a <> [] -> head_ok p (a ++ b) = head_ok p a.
Proof. destruct a; [congruence | reflexivity]. Qed.

Lemma head_ok_weaken (p q : ascii -> bool) (s : str) :
  (forall c, q c = true -> p c = false) ->
  forallb q s = true -> head_ok p s = true.
Proof.
  intros H. destruct s as [|c s]; simpl; trivial. intros Hq.
  apply andb_true_iff in Hq. destruct Hq as [Hq _]. now rewrite (H c Hq).
Qed.

Lemma forallb_rev (q : ascii -> bool) (s : str) :
  forallb q s = true -> forallb q (rev s) = true.
Proof.
  rewrite !forallb_forall. intros H c Hc. apply H. now apply in_rev.
Qed.

Lemma sanitize_name_fix (s : str) :
  s <> [] ->
  forallb is_word s = true ->
  head_ok is_underscore s = true ->
  head_ok isdigit s = true ->
  last_ok is_underscore s = true ->
  no_double s = true ->
  lower s = s ->
  sanitize_name s = s.
Proof.
  intros Hne Hw Hu Hd Hl Hn Hlow.
  assert (Hcore : sanitize_core s = s).
  { unfold sanitize_core, strip, strip_underscores.
    rewrite (strip_by_fix isspace s).
    - rewrite sub_nonword_fix by assumption.
      unfold collapse_underscores.
      rewrite (proj1 (collapse_from_fix s Hn)).
      now apply strip_by_fix.
    - now apply (head_ok_weaken isspace is_word s word_not_space).
    - apply (head_ok_weaken isspace is_word (rev s) word_not_space).
      now apply forallb_rev. }
  unfold sanitize_name. rewrite Hcore.
  destruct s as [|c s]; [congruence|].
  simpl in Hd. simpl is_empty. simpl starts_with_digit.
  apply negb_true_iff in Hd. rewrite Hd. simpl orb. cbv iota. exact Hlow.
Qed.

Lemma sanitize_name_prefixed (x : str) :
  sanitize_name x = lower (prefixed (sanitize_core x)).
Proof. reflexivity. Qed.

Lemma col_prefix_word : forallb is_word "col_" = true.
Proof. vm_compute. reflexivity. Qed.

Lemma col_prefix_head :
  is_underscore "c"%char = false /\ isdigit "c"%char = false /\
  is_underscore "o"%char = false /\ is_underscore "l"%char = false.
Proof. vm_compute. auto. Qed.

Lemma prefixed_shape (core : str) :
  core <> [] ->
  forallb is_word core = true ->
  head_ok is_underscore core = true ->
  last_ok is_underscore core = true ->
  no_double core = true ->
  let s := prefixed core in
  s <> [] /\ forallb is_word s = true /\ head_ok is_underscore s = true /\
  head_ok isdigit s = true /\ last_ok is_underscore s = true /\
  no_double s = true.
Proof.
  intros Hne Hw Hu Hl Hn. unfold prefixed.
  destruct core as [|c core]; [congruence|].
  change (is_empty (c :: core) || starts_with_digit (c :: core)) with (isdigit c).
  destruct col_prefix_head as [Hc [Hcd [Ho Hl']]].
  destruct (isdigit c) eqn:E.
  - change (lit "col_" ++ c :: core)
      with ("c"%char :: "o"%char :: "l"%char :: underscore :: c :: core).
    split; [discriminate|].
    split.
    { change (forallb is_word (lit "col_" ++ c :: core) = true).
      rewrite forallb_app, col_prefix_word. exact Hw. }
    split; [unfold head_ok; now rewrite Hc|].
    split; [unfold head_ok; now rewrite Hcd|].
    split.
    { change (last_ok is_underscore (lit "col_" ++ c :: core) = true).
      unfold last_ok in *. rewrite rev_app_distr.
      rewrite head_ok_app_left; trivial.
      intros H. apply (f_equal (@rev ascii)) in H.
      rewrite rev_involutive in H. discriminate H. }
    apply no_double_cons; [|rewrite Hc; discriminate].
    apply no_double_cons; [|rewrite Ho; discriminate].
    apply no_double_cons; [|rewrite Hl'; discriminate].
    apply no_double_cons; [exact Hn|]. intros _. exact Hu.
  - split; [discriminate|]. split; [exact Hw|]. split; [exact Hu|].
    split; [unfold head_ok; now rewrite E|]. split; [exact Hl | exact Hn].
Qed.

(** ** sanitize_name: shape of the result and the second application *)

Lemma sanitize_core_head (x : str) :
  head_ok is_underscore (sanitize_core x) = true.
Proof. apply strip_by_head_ok. Qed.

Lemma sanitize_core_last (x : str) :
  last_ok is_underscore (sanitize_core x) = true.
Proof. apply strip_by_last_ok. Qed.

Lemma lower_nil (s : str) : lower s = [] -> s = [].
Proof. destruct s; [trivial | discriminate]. Qed.

(** A result that did not come from the empty fallback is a name that
    [sanitize_name] leaves alone. *)
Lemma sanitize_name_stable (x : str) :
  sanitize_core x <> [] ->
  sanitize_name (sanitize_name x) = sanitize_name x.
Proof.
  intros Hne. rewrite (sanitize_name_prefixed x).
  destruct (prefixed_shape (sanitize_core x) Hne
              (sanitize_core_word x) (sanitize_core_head x)
              (sanitize_core_last x) (sanitize_core_no_double x))
    as [H1 [H2 [H3 [H4 [H5 H6]]]]].
  apply sanitize_name_fix.
  - intros H. apply lower_nil in H. contradiction.
  - rewrite forallb_lower; [assumption | apply is_word_lower].
  - rewrite head_ok_lower; [assumption | apply is_underscore_lower].
  - rewrite head_ok_lower; [assumption | apply isdigit_lower].
  - rewrite last_ok_lower; [assumption | apply is_underscore_lower].
  - now rewrite no_double_lower.
  - apply lower_idem.
Qed.

Lemma sanitize_name_fallback (x : str) :
  sanitize_core x = [] -> sanitize_name x = "col_".
Proof.
  intros H. rewrite sanitize_name_prefixed, H. vm_compute. reflexivity.
Qed.

Lemma sanitize_name_fallback_only (x : str) :
  sanitize_name x = "col_" -> sanitize_core x = [].
Proof.
  rewrite sanitize_name_prefixed. unfold prefixed.
  pose proof (sanitize_core_last x) as Hl.
  destruct (sanitize_core x) as [|c core]; trivial.
  change (is_empty (c :: core) || starts_with_digit (c :: core)) with (isdigit c).
  destruct (isdigit c); intros H.
  - apply (f_equal (@length ascii)) in H. unfold lower in H.
    rewrite length_map, length_app in H. simpl in H. lia.
  - exfalso. rewrite <- (last_ok_lower is_underscore) in Hl
      by apply is_underscore_lower.
    rewrite H in Hl. vm_compute in Hl. discriminate Hl.
Qed.

Lemma sanitize_name_ascii_shape (x : str) :
  is_ascii x = true -> ident_shape (sanitize_name x) = true.
Proof.
  intros Ha.
  assert (Hcase : sanitize_core x = [] \/ sanitize_core x <> [])
    by (destruct (sanitize_core x); [left | right]; congruence).
  destruct Hcase as [Ecore | Hne].
  - rewrite (sanitize_name_fallback x Ecore). vm_compute. reflexivity.
  - pose proof (sanitize_core_ascii x Ha) as Hca.
    rewrite sanitize_name_prefixed.
    destruct (prefixed_shape (sanitize_core x) Hne
                (sanitize_core_word x) (sanitize_core_head x)
                (sanitize_core_last x) (sanitize_core_no_double x))
      as [H1 [H2 [_ [H4 _]]]].
    assert (Hpa : is_ascii (prefixed (sanitize_core x)) = true).
    { unfold prefixed.
      destruct (is_empty _ || starts_with_digit _); [|exact Hca].
      unfold is_ascii in *. rewrite forallb_app, Hca.
      vm_compute. reflexivity. }
    set (s := prefixed (sanitize_core x)) in *.
    assert (Hw : forallb is_word (lower s) = true)
      by (rewrite forallb_lower; [assumption | apply is_word_lower]).
    assert (Ha' : forallb is_ascii_char (lower s) = true)
      by (rewrite forallb_lower; [assumption | apply is_ascii_lower]).
    assert (Hd : head_ok isdigit (lower s) = true)
      by (rewrite head_ok_lower; [assumption | apply isdigit_lower]).
    pose proof (lower_fix_chars (lower s) (lower_idem s)) as Hfix.
    destruct (lower s) as [|c r] eqn:Er.
    { apply lower_nil in Er. contradiction. }
    unfold ident_shape.
    change (forallb is_word (c :: r)) with (is_word c && forallb is_word r) in Hw.
    change (forallb is_ascii_char (c :: r))
      with (is_ascii_char c && forallb is_ascii_char r) in Ha'.
    apply andb_true_iff in Hw. destruct Hw as [Hw1 Hw2].
    apply andb_true_iff in Ha'. destruct Ha' as [Ha1 Ha2].
    unfold head_ok in Hd. apply negb_true_iff in Hd.
    apply andb_true_iff. split.
    + apply ascii_word_ident_start; trivial. apply Hfix. now left.
    + rewrite forallb_forall in *. intros d Hd'.
      apply ascii_word_ident; auto. apply Hfix. now right.
Qed.

(** C1, as amended.  For every ASCII name the result of [sanitize_name]
    matches [^[a-z_][a-z0-9_]*$]; a second application changes nothing
    unless the result is the bare fallback [col_], and then it gives [col]. *)
Theorem sanitize_name_ascii (x : str) :
  is_ascii x = true ->
  ident_shape (sanitize_name x) = true /\
  (sanitize_name x <> "col_" ->
   sanitize_name (sanitize_name x) = sanitize_name x) /\
  (sanitize_name x = "col_" ->
   sanitize_name (sanitize_name x) = "col").
Proof.
  intros Ha. split; [now apply sanitize_name_ascii_shape|]. split.
  - intros H. apply sanitize_name_stable. intros Hc.
    apply H. now apply sanitize_name_fallback.
  - intros H. rewrite H. vm_compute. reflexivity.
Qed.

Lemma sanitize_name_ascii_witness :
  is_ascii " 2 Col! Name " = true /\
  ident_shape (sanitize_name " 2 Col! Name ") = true /\
  sanitize_name (sanitize_name " 2 Col! Name ") = sanitize_name " 2 Col! Name ".
Proof.
  split; [vm_compute; reflexivity|].
  destruct (sanitize_name_ascii " 2 Col! Name ") as [H1 [H2 _]];
    [vm_compute; reflexivity|].
  split; [exact H1|]. apply H2. vm_compute. discriminate.
Defined.

(** C1 fails as stated: the result for the empty name is [col_], and
    sanitizing [col_] gives [col]. *)
Lemma sanitize_name_not_idempotent :
  sanitize_name "" = "col_" /\
  sanitize_name (sanitize_name "") <> sanitize_name "".
Proof. split; [vm_compute; reflexivity | vm_compute; discriminate]. Qed.

(** ** map_dtype_to_sql *)

(** C6.  For the five semantic types and the three dialects the result is
    the entry of the lookup table, and a dtype name with none of the four
    keywords gets the text row. *)
Theorem map_dtype_to_sql_table :
  (forall t d, map_dtype_to_sql (dtype_name t) (dialect_name d) = type_table t d) /\
  (forall dtype_str d,
      unrecognized dtype_str = true ->
      map_dtype_to_sql dtype_str (dialect_name d) = type_table Text d).
Proof.
  split.
  - intros [] []; vm_compute; reflexivity.
  - intros dtype_str d H. unfold unrecognized in H.
    repeat (apply andb_true_iff in H; destruct H as [H ?]).
    repeat match goal with
           | H : negb _ = true |- _ => apply negb_true_iff in H
           end.
    unfold map_dtype_to_sql.
    repeat match goal with
           | H : contains _ _ = false |- _ => rewrite H; clear H
           end.
    destruct d; vm_compute; reflexivity.
Qed.

Lemma map_dtype_to_sql_table_witness :
  unrecognized "category" = true /\
  map_dtype_to_sql "category" (dialect_name PostgreSQL) = type_table Text PostgreSQL.
Proof.
  split; [vm_compute; reflexivity|].
  apply (proj2 map_dtype_to_sql_table). vm_compute. reflexivity.
Defined.

(** ** clean_data with nothing selected *)

(** C5.  With an empty selection the table comes back as it went in. *)
Theorem clean_data_empty_selection (df : DataFrame) : clean_data df [] = df.
Proof. reflexivity. Qed.

(** ** Text comparison *)

Lemma str_eqb_eq (a b : str) : str_eqb a b = true <-> a = b.
Proof.
  revert b. induction a as [|x a IH]; intros [|y b]; simpl;
    try (split; [discriminate | congruence]); [tauto|].
  rewrite andb_true_iff, Ascii.eqb_eq, IH.
  split; [intros [-> ->]; reflexivity | intros H; injection H; auto].
Qed.

Lemma str_eqb_refl (a : str) : str_eqb a a = true.
Proof. now apply str_eqb_eq. Qed.

Lemma str_eqb_neq (a b : str) : str_eqb a b = false <-> a <> b.
Proof.
  rewrite <- str_eqb_eq. destruct (str_eqb a b); split; congruence.
Qed.

Lemma mem_In (x : str) (l : list str) : mem x l = true <-> In x l.
Proof.
  unfold mem. rewrite existsb_exists. split.
  - intros [y [Hy E]]. apply str_eqb_eq in E. now subst.
  - intros H. exists x. split; [assumption | apply str_eqb_refl].
Qed.

(** ** Escaping quotes *)

Lemma replace_quote (s : str) :
  replace [quote] [quote; quote] s = double_quotes s.
Proof.
  unfold replace. induction s as [|c s IH]; [reflexivity|].
  change (replace_from [quote] [quote; quote] 0 (c :: s))
    with (if Ascii.eqb quote c && true
          then [quote; quote] ++ replace_from [quote] [quote; quote] 0 s
          else c :: replace_from [quote] [quote; quote] 0 s).
  change (double_quotes (c :: s))
    with ((if Ascii.eqb c quote then [quote; quote] else [c]) ++ double_quotes s).
  rewrite andb_true_r, IH, (Ascii.eqb_sym quote c).
  destruct (Ascii.eqb c quote); reflexivity.
Qed.

Lemma unescape_double_quotes (s : str) : unescape (double_quotes s) = s.
Proof.
  unfold unescape, replace. induction s as [|c s IH]; [reflexivity|].
  change (double_quotes (c :: s))
    with ((if Ascii.eqb c quote then [quote; quote] else [c]) ++ double_quotes s).
  destruct (Ascii.eqb c quote) eqn:E.
  - apply Ascii.eqb_eq in E. subst c.
    change (replace_from [quote; quote] [quote] 0
              ([quote; quote] ++ double_quotes s))
      with (quote :: replace_from [quote; quote] [quote] 0 (double_quotes s)).
    now rewrite IH.
  - change (replace_from [quote; quote] [quote] 0 ([c] ++ double_quotes s))
      with (if Ascii.eqb quote c && starts_with [quote] (double_quotes s)
            then [quote] ++ replace_from [quote; quote] [quote] 1 (double_quotes s)
            else c :: replace_from [quote; quote] [quote] 0 (double_quotes s)).
    rewrite (Ascii.eqb_sym quote c), E. simpl andb. cbv iota.
    now rewrite IH.
Qed.

(** ** The loops of generate_sql *)

Lemma fold_left_snoc {A B : Type} (f : A -> B) (l : list A) (acc : list B) :
  fold_left (fun out x => out ++ [f x]) l acc = acc ++ map f l.
Proof.
  revert acc. induction l as [|x l IH]; intros acc; simpl.
  - now rewrite app_nil_r.
  - rewrite IH, <- app_assoc. reflexivity.
Qed.

Lemma combine_snd {A B : Type} (l : list A) (l' : list B) :
  length l' = length l -> map snd (combine l l') = l'.
Proof.
  revert l'. induction l as [|x l IH]; intros [|y l']; simpl; intros H;
    try discriminate; trivial.
  injection H as H. now rewrite IH.
Qed.

Lemma sql_value_cell_text (v : value) : sql_value v = cell_text v.
Proof.
  unfold sql_value, cell_text.
  destruct (isna v); trivial.
  destruct (isinstance_int_float v); trivial.
  now rewrite replace_quote.
Qed.

Lemma row_values_map (cols : list str) (cells : list value) :
  length cells = length cols ->
  row_values cols cells = map cell_text cells.
Proof.
  intros H. unfold row_values.
  rewrite (fold_left_snoc (fun cv => sql_value (snd cv))). simpl.
  rewrite <- (map_map snd sql_value), combine_snd by assumption.
  apply map_ext, sql_value_cell_text.
Qed.

Lemma insert_stmts_map (df : DataFrame) (table_name : str) :
  insert_stmts df table_name =
  map (fun r => insert_stmt (sanitize_name table_name)
                  (join ", " (map sanitize_name (columns df)))
                  (columns df) (snd r))
      (iterrows df).
Proof. unfold insert_stmts. now rewrite fold_left_snoc. Qed.

Lemma nth_error_iterrows (df : DataFrame) (i : nat) (r : nat * list value) :
  nth_error (rows df) i = Some r ->
  nth_error (iterrows df) i
    = Some (fst r, map (row_cell (common_dtype (dtypes df))) (snd r)).
Proof. intros H. unfold iterrows. now rewrite nth_error_map, H. Qed.

(** The INSERT part of the result is the statements joined by newlines;
    there is one statement per row, in row order; the statement of a row
    is made of the cells as [iterrows] hands them: a missing one reads
    NULL, an instance of int or float reads as its text, and any other is
    its text between single quotes with every quote doubled. *)
Theorem generate_sql_inserts (df : DataFrame) (table_name dialect : str) :
  snd (generate_sql df table_name dialect)
    = join [newline] (insert_stmts df table_name) /\
  length (insert_stmts df table_name) = length (rows df) /\
  (forall i r,
      nth_error (rows df) i = Some r ->
      length (snd r) = length (columns df) ->
      nth_error (insert_stmts df table_name) i
        = Some (insert_text table_name (columns df)
                  (map (row_cell (common_dtype (dtypes df))) (snd r)))) /\
  (forall v,
      (isna v = true -> sql_value v = "NULL") /\
      (isna v = false -> isinstance_int_float v = true ->
       sql_value v = py_str v) /\
      (isna v = false -> isinstance_int_float v = false ->
       sql_value v = [quote] ++ double_quotes (py_str v) ++ [quote])).
Proof.
  split; [reflexivity|]. split.
  - rewrite insert_stmts_map. unfold iterrows. now rewrite !length_map.
  - split.
    + intros i r Hr Hlen. rewrite insert_stmts_map.
      rewrite nth_error_map, (nth_error_iterrows df i r Hr).
      cbn [option_map snd]. f_equal.
      unfold insert_stmt, insert_text.
      rewrite row_values_map; [reflexivity|]. now rewrite length_map.
    + intros v. rewrite sql_value_cell_text. unfold cell_text.
      repeat split; intros;
        repeat match goal with H : _ = _ |- _ => rewrite H end; reflexivity.
Qed.

Lemma generate_sql_inserts_witness :
  let df := {| columns := [lit "Name"; lit "Age"];
               dtypes := [lit "object"; lit "int64"];
               rows := [(0, [PyStr "O'Neil"; PyInt 30]); (1, [NaN; PyFloat "1.5"])] |} in
  nth_error (insert_stmts df "People") 0
    = Some (lit "INSERT INTO people (name, age) VALUES ('O''Neil', 30);") /\
  nth_error (insert_stmts df "People") 1
    = Some (lit "INSERT INTO people (name, age) VALUES (NULL, 1.5);").
Proof.
  intros df.
  destruct (generate_sql_inserts df "People" "mysql") as [_ [_ [H _]]].
  split.
  - rewrite (H 0 (0, [PyStr "O'Neil"; PyInt 30])); reflexivity.
  - rewrite (H 1 (1, [NaN; PyFloat "1.5"])); reflexivity.
Defined.

(** C2 on a sheet of whole numbers.  Every column is int64, so [iterrows]
    hands [numpy.int64] scalars; they are no instances of int, and the
    numbers are written in quotes.  Next to a float64 column the whole
    number is handed as a float and written 1.0. *)
Theorem generate_sql_quotes_int64 :
  insert_stmts scores "t" = [lit "INSERT INTO t (a, b) VALUES ('1', '3');"] /\
  insert_stmts measures "t" = [lit "INSERT INTO t (n, x) VALUES (1.0, 2.5);"].
Proof. split; vm_compute; reflexivity. Qed.

(** C9 on a sheet of booleans.  Every column is bool, so [iterrows] hands
    [numpy.bool_] scalars; they are no instances of int, and True and False
    are written in quotes. *)
Theorem generate_sql_quotes_numpy_bool :
  insert_stmts flags "t"
    = [lit "INSERT INTO t (active) VALUES ('True');";
       lit "INSERT INTO t (active) VALUES ('False');"].
Proof. vm_compute. reflexivity. Qed.

(** In a table whose columns are not all bool, a bool cell reaches the
    loop as a Python bool: it is not missing and is an instance of int, so
    it takes the numeric branch and its value in the statement is the bare
    text True or False. *)
Theorem bool_cell_unquoted (df : DataFrame) (i j : nat)
    (r : nat * list value) (b : bool) :
  common_dtype (dtypes df) <> ValuesBool ->
  nth_error (rows df) i = Some r ->
  length (snd r) = length (columns df) ->
  nth_error (snd r) j = Some (PyBool b) ->
  isna (PyBool b) = false /\
  isinstance_int_float (PyBool b) = true /\
  exists row,
    nth_error (iterrows df) i = Some row /\
    nth_error (snd row) j = Some (PyBool b) /\
    nth_error (row_values (columns df) (snd row)) j
      = Some (if b then lit "True" else lit "False").
Proof.
  intros Hdt Hr Hlen Hj. split; [reflexivity|]. split; [reflexivity|].
  exists (fst r, map (row_cell (common_dtype (dtypes df))) (snd r)).
  split; [now apply nth_error_iterrows|]. cbn [snd].
  assert (Hcell : nth_error (map (row_cell (common_dtype (dtypes df))) (snd r)) j
                  = Some (PyBool b)).
  { rewrite nth_error_map, Hj. cbn [option_map]. f_equal.
    destruct (common_dtype (dtypes df)); trivial. congruence. }
  split; [exact Hcell|].
  rewrite row_values_map by now rewrite length_map.
  rewrite nth_error_map, Hcell. destruct b; reflexivity.
Qed.

Lemma bool_cell_unquoted_witness :
  exists row,
    nth_error (iterrows {| columns := [lit "Name"; lit "Member"];
                           dtypes := [lit "object"; lit "bool"];
                           rows := [(0, [PyStr "Bob"; PyBool true])] |}) 0
      = Some row /\
    nth_error (snd row) 1 = Some (PyBool true) /\
    nth_error (row_values [lit "Name"; lit "Member"] (snd row)) 1
      = Some (lit "True").
Proof.
  apply (bool_cell_unquoted
           {| columns := [lit "Name"; lit "Member"];
              dtypes := [lit "object"; lit "bool"];
              rows := [(0, [PyStr "Bob"; PyBool true])] |}
           0 1 (0, [PyStr "Bob"; PyBool true]) true);
    try reflexivity.
  vm_compute. discriminate.
Defined.

(** ** One cell under the replacement table *)

Lemma replace_regex_not_text (table : list (pattern * value)) (v : value) :
  (forall s, v <> PyStr s) -> replace_regex table v = v.
Proof.
  intros H. unfold replace_regex. induction table as [|e table IH]; trivial.
  simpl. rewrite <- IH at 2. f_equal.
  destruct v; trivial. now destruct (H s).
Qed.

Lemma replace_regex_text (table : list (pattern * value)) (s : str) :
  (forall e, In e table -> snd e = NA) ->
  replace_regex table (PyStr s)
    = if existsb (fun e => re_search (fst e) s) table then NA else PyStr s.
Proof.
  induction table as [|e table IH]; intros H; trivial.
  change (replace_regex (e :: table) (PyStr s))
    with (replace_regex table (if re_search (fst e) s then snd e else PyStr s)).
  simpl existsb. destruct (re_search (fst e) s).
  - rewrite (H e) by now left.
    apply replace_regex_not_text. discriminate.
  - apply IH. intros e' He'. apply H. now right.
Qed.

Lemma normalize_cell_null_like (v : value) :
  normalize_cell v
    = if null_like (strip (py_str v)) then NA else PyStr (strip (py_str v)).
Proof.
  unfold normalize_cell, null_like. apply replace_regex_text.
  intros e He. simpl in He.
  repeat (destruct He as [<- | He]; [reflexivity|]). contradiction.
Qed.

Lemma normalize_cell_cases (v : value) :
  normalize_cell v = NA \/ normalize_cell v = PyStr (strip (py_str v)).
Proof.
  rewrite normalize_cell_null_like.
  destruct (null_like _); [now left | now right].
Qed.

(** ** Reading a quoted value back *)

(** C7, as amended.  A cell that is written in quotes reads back, after
    un-escaping, as the text of the cell as it stands in the table given to
    [generate_sql]; for a cell that [clean_data] normalized and kept, that
    text is the stripped text of the original value. *)
Theorem quoted_value_round_trip :
  (forall v,
      isna v = false -> isinstance_int_float v = false ->
      exists content,
        sql_value v = [quote] ++ content ++ [quote] /\
        unescape content = py_str v) /\
  (forall v0,
      isna (normalize_cell v0) = false ->
      exists content,
        sql_value (normalize_cell v0) = [quote] ++ content ++ [quote] /\
        unescape content = strip (py_str v0)).
Proof.
  split.
  - intros v H1 H2. exists (double_quotes (py_str v)). split.
    + rewrite sql_value_cell_text. unfold cell_text. now rewrite H1, H2.
    + apply unescape_double_quotes.
  - intros v0 H. exists (double_quotes (strip (py_str v0))).
    destruct (normalize_cell_cases v0) as [E | E]; rewrite E in *.
    + discriminate H.
    + split; [|apply unescape_double_quotes].
      rewrite sql_value_cell_text. reflexivity.
Qed.

Lemma quoted_value_round_trip_witness :
  exists content,
    sql_value (PyStr "O'Neil") = [quote] ++ content ++ [quote] /\
    unescape content = lit "O'Neil".
Proof.
  apply (proj1 quoted_value_round_trip (PyStr "O'Neil")); reflexivity.
Defined.

(** C7 fails as stated: the generator does not strip.  A text cell with
    blanks around it is written with them, and reads back with them. *)
Lemma quoted_value_not_stripped :
  sql_value (PyStr " a ") = [quote] ++ lit " a " ++ [quote] /\
  unescape " a " <> strip (py_str (PyStr " a ")).
Proof. split; [vm_compute; reflexivity | vm_compute; discriminate]. Qed.

(** ** Null-like text *)

Lemma isspace_lower (c : ascii) : isspace (lower_char c) = isspace c.
Proof. each_char c. Qed.

Lemma forallb_rev_eq (q : ascii -> bool) (s : str) :
  forallb q (rev s) = forallb q s.
Proof.
  destruct (forallb q s) eqn:E.
  - now apply forallb_rev.
  - destruct (forallb q (rev s)) eqn:E'; trivial.
    apply forallb_rev in E'. rewrite rev_involutive in E'. congruence.
Qed.

Lemma dropwhile_nil (p : ascii -> bool) (s : str) :
  dropwhile p s = [] <-> forallb p s = true.
Proof.
  induction s as [|c s IH]; simpl; [tauto|].
  destruct (p c); simpl; [exact IH | split; discriminate].
Qed.

Lemma strip_by_nil (p : ascii -> bool) (s : str) :
  strip_by p s = [] <-> forallb p s = true.
Proof.
  unfold strip_by, lstrip_by, rstrip_by. split.
  - intros H. apply (f_equal (@rev ascii)) in H.
    rewrite rev_involutive in H. simpl in H.
    apply dropwhile_nil in H. rewrite forallb_rev_eq in H.
    destruct (dropwhile_split p s) as [t [Hs Ht]].
    rewrite Hs, forallb_app, Ht, H. reflexivity.
  - intros H. apply dropwhile_nil in H. rewrite H. reflexivity.
Qed.

Lemma is_blank_strip (t : str) : is_blank (strip t) = is_blank t.
Proof.
  unfold is_blank, strip. destruct (forallb isspace t) eqn:E.
  - apply strip_by_nil in E. now rewrite E.
  - destruct (forallb isspace (strip_by isspace t)) eqn:E'; trivial.
    apply strip_by_nil in E'. rewrite strip_by_idem in E'.
    apply strip_by_nil in E'. congruence.
Qed.

Lemma stripped_no_final_newline (t token : str) :
  str_eqb (lower (strip t)) (token ++ [newline]) = false.
Proof.
  apply str_eqb_neq. intros H.
  pose proof (strip_by_last_ok isspace t) as Hl. fold (strip t) in Hl.
  rewrite <- (last_ok_lower isspace) in Hl by apply isspace_lower.
  rewrite H in Hl. unfold last_ok in Hl. rewrite rev_app_distr in Hl.
  vm_compute in Hl. discriminate Hl.
Qed.

Lemma null_like_strip (t : str) : null_like (strip t) = null_like_text t.
Proof.
  unfold null_like, null_like_text, is_null_token, null_like_table, null_tokens.
  unfold existsb, re_search, fst.
  rewrite !stripped_no_final_newline, !orb_false_r.
  fold (is_blank (strip t)). rewrite is_blank_strip.
  replace (lower (lit "None")) with (lower (lit "none"))
    by (vm_compute; reflexivity).
  repeat rewrite <- orb_assoc. reflexivity.
Qed.

Lemma normalize_cell_text (v : value) :
  normalize_cell v
    = if null_like_text (py_str v) then NA else PyStr (strip (py_str v)).
Proof. rewrite normalize_cell_null_like. now rewrite null_like_strip. Qed.

(** ** The loop over the selected columns *)

Lemma map_at_map_cols {A : Type} (cols : list str) (col : str) (f : A -> A)
    (cells : list A) :
  map_at cols col f cells
    = map_cols (fun c v => if str_eqb c col then f v else v) cols cells.
Proof.
  revert cells. induction cols as [|c cols IH]; intros [|v cells]; simpl; trivial.
  now rewrite IH.
Qed.

Lemma map_cols_compose {A : Type} (g h : str -> A -> A) (cols : list str)
    (cells : list A) :
  map_cols g cols (map_cols h cols cells)
    = map_cols (fun c v => g c (h c v)) cols cells.
Proof.
  revert cells. induction cols as [|c cols IH]; intros [|v cells]; simpl; trivial.
  now rewrite IH.
Qed.

Lemma map_cols_id {A : Type} (cols : list str) (cells : list A) :
  map_cols (fun _ v => v) cols cells = cells.
Proof.
  revert cells. induction cols as [|c cols IH]; intros [|v cells]; simpl; trivial.
  now rewrite IH.
Qed.

Lemma map_cols_length {A : Type} (g : str -> A -> A) (cols : list str)
    (cells : list A) :
  length (map_cols g cols cells) = length cells.
Proof.
  revert cells. induction cols as [|c cols IH]; intros [|v cells]; simpl; trivial.
  now rewrite IH.
Qed.

Lemma combine_map_cols {A : Type} (g : str -> A -> A) (cols : list str)
    (cells : list A) :
  combine cols (map_cols g cols cells)
    = map (fun cv => (fst cv, g (fst cv) (snd cv))) (combine cols cells).
Proof.
  revert cells. induction cols as [|c cols IH]; intros [|v cells]; simpl; trivial.
  now rewrite IH.
Qed.

Lemma nth_error_map_cols {A : Type} (g : str -> A -> A) (cols : list str)
    (cells : list A) (j : nat) (c : str) :
  nth_error cols j = Some c ->
  nth_error (map_cols g cols cells) j = option_map (g c) (nth_error cells j).
Proof.
  revert cells j. induction cols as [|c' cols IH]; intros cells j H.
  - destruct j; discriminate H.
  - destruct cells as [|v cells]; [now destruct j|].
    destruct j as [|j]; simpl in *.
    + injection H as ->. reflexivity.
    + now apply IH.
Qed.

Lemma clean_step_columns (df : DataFrame) (col : str) :
  columns (clean_step df col) = columns df.
Proof. unfold clean_step. now destruct (mem col (columns df)). Qed.

Lemma map_at_absent {A : Type} (cols : list str) (col : str) (f : A -> A)
    (cells : list A) :
  mem col cols = false -> map_at cols col f cells = cells.
Proof.
  revert cells. induction cols as [|c cols IH]; intros [|v cells] H; trivial.
  simpl in H. apply orb_false_iff in H. destruct H as [H1 H2].
  simpl. rewrite (IH cells H2).
  destruct (str_eqb c col) eqn:E; trivial.
  apply str_eqb_eq in E. subst c. rewrite str_eqb_refl in H1. discriminate H1.
Qed.

Lemma clean_step_rows (df : DataFrame) (col : str) :
  rows (clean_step df col)
    = map (fun r => (fst r, map_at (columns df) col normalize_cell (snd r)))
          (rows df).
Proof.
  unfold clean_step. destruct (mem col (columns df)) eqn:E; trivial.
  rewrite <- (map_id (rows df)) at 1. apply map_ext.
  intros [l cells]. simpl. now rewrite map_at_absent.
Qed.

Lemma fold_clean_step_columns (selected : list str) (df : DataFrame) :
  columns (fold_left clean_step selected df) = columns df.
Proof.
  revert df. induction selected as [|col selected IH]; intros df; trivial.
  simpl. now rewrite IH, clean_step_columns.
Qed.

Lemma fold_clean_step_rows (selected : list str) (df : DataFrame) :
  rows (fold_left clean_step selected df)
    = map (fun r => (fst r, map_cols (cell_after selected) (columns df) (snd r)))
          (rows df).
Proof.
  revert df. induction selected as [|col selected IH]; intros df.
  - simpl. rewrite <- (map_id (rows df)) at 1. apply map_ext.
    intros [l cells]. simpl. unfold cell_after. simpl.
    now rewrite map_cols_id.
  - simpl fold_left. rewrite IH, clean_step_columns, clean_step_rows.
    rewrite map_map. apply map_ext. intros [l cells]. simpl.
    rewrite map_at_map_cols, map_cols_compose. reflexivity.
Qed.

Lemma cell_after_unselected (selected : list str) (c : str) (v : value) :
  ~ In c selected -> cell_after selected c v = v.
Proof.
  revert v. induction selected as [|col selected IH]; intros v H; trivial.
  unfold cell_after. simpl.
  destruct (str_eqb c col) eqn:E.
  - apply str_eqb_eq in E. subst. destruct H. now left.
  - apply IH. intros Hin. apply H. now right.
Qed.

Lemma cell_after_selected (selected : list str) (c : str) (v : value) :
  NoDup selected -> In c selected ->
  cell_after selected c v = normalize_cell v.
Proof.
  revert v. induction selected as [|col selected IH]; intros v Hnd Hin.
  - contradiction.
  - inversion Hnd as [|? ? Hnotin Hnd']; subst.
    unfold cell_after. simpl. destruct (str_eqb c col) eqn:E.
    + apply str_eqb_eq in E. subst.
      now apply cell_after_unselected.
    + destruct Hin as [-> | Hin]; [now rewrite str_eqb_refl in E|].
      now apply IH.
Qed.

(** After the loop a cell of a selected column is the missing marker or a
    stripped text that is not null-like, whatever the selection repeats. *)
Lemma cell_after_normalized (selected : list str) (c : str) (v : value) :
  In c selected ->
  cell_after selected c v = NA \/
  exists w, cell_after selected c v = PyStr (strip (py_str w)) /\
            null_like_text (py_str w) = false.
Proof.
  revert v. induction selected as [|col selected IH]; intros v Hin.
  - contradiction.
  - destruct (in_dec (list_eq_dec ascii_dec) c selected) as [Hs | Hs].
    + unfold cell_after. simpl. apply (IH _ Hs).
    + destruct Hin as [-> | Hin]; [|contradiction].
      unfold cell_after. simpl. rewrite str_eqb_refl.
      fold (cell_after selected c (normalize_cell v)).
      rewrite cell_after_unselected by assumption.
      rewrite normalize_cell_text.
      destruct (null_like_text (py_str v)) eqn:E; [now left|].
      right. now exists v.
Qed.

(** ** The rows that clean_data keeps *)

Lemma existsb_ext_in {A : Type} (f g : A -> bool) (l : list A) :
  (forall x, In x l -> f x = g x) -> existsb f l = existsb g l.
Proof.
  induction l as [|x l IH]; intros H; trivial. simpl.
  rewrite (H x) by now left. rewrite IH; trivial.
  intros y Hy. apply H. now right.
Qed.

Lemma existsb_map {A B : Type} (f : B -> bool) (g : A -> B) (l : list A) :
  existsb f (map g l) = existsb (fun x => f (g x)) l.
Proof. induction l as [|x l IH]; simpl; [trivial | now rewrite IH]. Qed.

Lemma mem_filter_present (c : str) (cols selected : list str) :
  mem c cols = true ->
  mem c (filter (fun col => mem col cols) selected) = mem c selected.
Proof.
  intros Hc. destruct (mem c selected) eqn:E.
  - apply mem_In. apply filter_In. split; [now apply mem_In | assumption].
  - destruct (mem c (filter _ selected)) eqn:E'; trivial.
    apply mem_In in E'. apply filter_In in E'. destruct E' as [E' _].
    apply mem_In in E'. congruence.
Qed.

Lemma clean_data_columns (df : DataFrame) (selected : list str) :
  columns (clean_data df selected) = columns df.
Proof.
  destruct selected as [|col selected]; trivial.
  change (columns (fold_left clean_step (col :: selected) df) = columns df).
  apply fold_clean_step_columns.
Qed.

Lemma clean_data_rows (df : DataFrame) (selected : list str) :
  selected <> [] ->
  rows (clean_data df selected)
    = filter (fun r => negb (has_na (columns df)
                               (filter (fun col => mem col (columns df)) selected)
                               (snd r)))
        (map (fun r => (fst r, map_cols (cell_after selected) (columns df) (snd r)))
             (rows df)).
Proof.
  intros Hne. destruct selected as [|col selected]; [congruence|].
  set (sel := col :: selected).
  change (rows (clean_data df sel))
    with (filter (fun r => negb (has_na (columns (fold_left clean_step sel df))
                     (filter (fun col => mem col (columns (fold_left clean_step sel df))) sel)
                     (snd r)))
            (rows (fold_left clean_step sel df))).
  now rewrite fold_clean_step_columns, fold_clean_step_rows.
Qed.

Lemma has_na_after (cols selected : list str) (cells : list value) :
  NoDup selected ->
  has_na cols (filter (fun col => mem col cols) selected)
         (map_cols (cell_after selected) cols cells)
    = row_is_null_like cols selected cells.
Proof.
  intros Hnd. unfold has_na, row_is_null_like.
  rewrite combine_map_cols, existsb_map.
  apply existsb_ext_in. intros [c v] Hin. simpl.
  assert (Hc : mem c cols = true).
  { apply mem_In. now apply in_combine_l in Hin. }
  rewrite (mem_filter_present c cols selected Hc).
  destruct (mem c selected) eqn:E; trivial. simpl.
  apply mem_In in E. rewrite cell_after_selected by assumption.
  rewrite normalize_cell_text. now destruct (null_like_text (py_str v)).
Qed.

Lemma row_is_null_like_false (cols selected : list str) (cells : list value) :
  row_is_null_like cols selected cells = false <->
  forall c v, In (c, v) (combine cols cells) -> In c selected ->
              null_like_text (py_str v) = false.
Proof.
  unfold row_is_null_like. split.
  - intros H c v Hin Hc.
    destruct (null_like_text (py_str v)) eqn:E; trivial.
    rewrite <- H. symmetry. apply existsb_exists. exists (c, v).
    split; trivial. simpl. rewrite E, andb_true_r. now apply mem_In.
  - intros H. destruct (existsb _ _) eqn:E; trivial.
    apply existsb_exists in E. destruct E as [[c v] [Hin E]]. simpl in E.
    apply andb_true_iff in E. destruct E as [E1 E2].
    apply mem_In in E1. rewrite (H c v Hin E1) in E2. discriminate E2.
Qed.

Lemma stripped_not_null_like (w : str) :
  null_like_text w = false ->
  strip (strip w) = strip w /\
  is_null_token (strip w) = false /\ is_blank (strip w) = false.
Proof.
  intros H. unfold null_like_text in H. apply orb_false_iff in H.
  destruct H as [H1 H2]. split; [apply strip_by_idem|]. split.
  - unfold is_null_token in *. unfold strip at 1. rewrite strip_by_idem.
    exact H1.
  - now rewrite is_blank_strip.
Qed.

Lemma label_determines_row {A : Type} (l : nat) (x y : A)
    (rs : list (nat * A)) :
  NoDup (map fst rs) -> In (l, x) rs -> In (l, y) rs -> x = y.
Proof.
  induction rs as [|[l' z] rs IH]; intros Hnd Hx Hy; [contradiction|].
  simpl in Hnd. inversion Hnd as [|? ? Hnotin Hnd']; subst.
  destruct Hx as [Hx | Hx]; destruct Hy as [Hy | Hy].
  - congruence.
  - injection Hx as -> ->. destruct Hnotin.
    apply (in_map fst) in Hy. exact Hy.
  - injection Hy as -> ->. destruct Hnotin.
    apply (in_map fst) in Hx. exact Hx.
  - now apply IH.
Qed.

(** C3.  In the cleaned table every cell of a selected column is a text
    that is stripped, equals no null-like token and is not blank; and, for
    a selection without repetition and rows with distinct labels, a cell
    with null-like text becomes the missing marker and its row is gone. *)
Theorem clean_data_no_null_like (df : DataFrame) (selected : list str) :
  (forall l cells c v,
      In c selected ->
      In (l, cells) (rows (clean_data df selected)) ->
      In (c, v) (combine (columns (clean_data df selected)) cells) ->
      exists s, v = PyStr s /\ strip s = s /\
                is_null_token s = false /\ is_blank s = false) /\
  (NoDup selected -> NoDup (labels df) ->
   forall l cells c v,
      In c selected ->
      In (l, cells) (rows df) ->
      In (c, v) (combine (columns df) cells) ->
      null_like_text (py_str v) = true ->
      normalize_cell v = NA /\ ~ In l (labels (clean_data df selected))).
Proof.
  split.
  - intros l cells c v Hc Hrow Hcell.
    assert (Hne : selected <> []) by (intros ->; contradiction).
    rewrite clean_data_columns in Hcell.
    rewrite (clean_data_rows df selected Hne) in Hrow.
    apply filter_In in Hrow. destruct Hrow as [Hrow Hkeep].
    apply in_map_iff in Hrow. destruct Hrow as [[l0 cells0] [E Hrow]].
    simpl in E. injection E as -> <-.
    simpl in Hkeep. apply negb_true_iff in Hkeep.
    rewrite combine_map_cols in Hcell. apply in_map_iff in Hcell.
    destruct Hcell as [[c0 v0] [E Hcell]]. simpl in E. injection E as -> <-.
    assert (Hna : isna (cell_after selected c v0) = false).
    { unfold has_na in Hkeep. rewrite combine_map_cols, existsb_map in Hkeep.
      destruct (isna (cell_after selected c v0)) eqn:E; trivial.
      rewrite <- Hkeep. symmetry. apply existsb_exists.
      exists (c, v0). split; trivial. simpl. rewrite E, andb_true_r.
      rewrite mem_filter_present; apply mem_In; trivial.
      now apply in_combine_l in Hcell. }
    destruct (cell_after_normalized selected c v0 Hc) as [E | [w [E Hw]]].
    + rewrite E in Hna. discriminate Hna.
    + exists (strip (py_str w)). split; trivial.
      now apply stripped_not_null_like.
  - intros Hnd Hlab l cells c v Hc Hrow Hcell Hnull.
    split; [now rewrite normalize_cell_text, Hnull|].
    assert (Hne : selected <> []) by (intros ->; contradiction).
    unfold labels. rewrite (clean_data_rows df selected Hne).
    intros Hin. apply in_map_iff in Hin. destruct Hin as [[l1 cells1] [E Hin]].
    simpl in E. subst l1. apply filter_In in Hin. destruct Hin as [Hin Hkeep].
    apply in_map_iff in Hin. destruct Hin as [[l0 cells0] [E Hin]].
    simpl in E. injection E as -> <-.
    assert (cells0 = cells) by (eapply label_determines_row; eauto). subst.
    simpl in Hkeep. rewrite has_na_after in Hkeep by assumption.
    apply negb_true_iff in Hkeep.
    rewrite row_is_null_like_false in Hkeep.
    rewrite (Hkeep c v Hcell Hc) in Hnull. discriminate Hnull.
Qed.

(** ** Row counts *)

Lemma filter_length_all {A : Type} (f : A -> bool) (l : list A) :
  length (filter f l) = length l <-> forall x, In x l -> f x = true.
Proof.
  induction l as [|x l IH]; simpl; [tauto|].
  pose proof (filter_length_le f l) as Hle.
  destruct (f x) eqn:E; simpl.
  - split.
    + intros H y [<- | Hy]; trivial. apply IH; [lia | assumption].
    + intros H. f_equal. apply IH. intros y Hy. apply H. now right.
  - split; [lia|]. intros H. rewrite (H x) in E by now left. discriminate E.
Qed.

(** C4.  Cleaning never adds rows, and, for a selection without repetition,
    it keeps the row count exactly when no row holds null-like text (a
    token or blank text, after stringification and stripping) under a
    selected column. *)
Theorem clean_data_row_count (df : DataFrame) (selected : list str) :
  NoDup selected ->
  length (rows (clean_data df selected)) <= length (rows df) /\
  (length (rows (clean_data df selected)) = length (rows df) <->
   forall r, In r (rows df) ->
             row_is_null_like (columns df) selected (snd r) = false).
Proof.
  intros Hnd. destruct selected as [|col selected].
  - simpl. split; [lia|]. split; trivial. intros _ r _.
    apply row_is_null_like_false. intros c v _ [].
  - assert (Hne : col :: selected <> []) by discriminate.
    rewrite (clean_data_rows df _ Hne).
    set (norm := fun r : nat * list value =>
                   (fst r, map_cols (cell_after (col :: selected)) (columns df) (snd r))).
    split.
    + rewrite <- (length_map norm (rows df)). apply filter_length_le.
    + rewrite <- (length_map norm (rows df)).
      rewrite filter_length_all. split.
      * intros H r Hr. specialize (H (norm r) (in_map norm _ _ Hr)).
        unfold norm in H. cbn [snd] in H.
        rewrite has_na_after in H by assumption.
        now apply negb_true_iff in H.
      * intros H r' Hr'. apply in_map_iff in Hr'.
        destruct Hr' as [r [<- Hr]]. unfold norm. cbn [snd].
        rewrite has_na_after by assumption. now rewrite (H r Hr).
Qed.

(** ** What cleaning leaves alone *)

(** C8.  The cleaned table has the columns of the table, in the same
    order, and a row that is kept has, under every column that is not
    selected, the cell it had. *)
Theorem clean_data_frame (df : DataFrame) (selected : list str) :
  columns (clean_data df selected) = columns df /\
  (forall l cells',
      In (l, cells') (rows (clean_data df selected)) ->
      exists cells,
        In (l, cells) (rows df) /\
        length cells' = length cells /\
        forall j c,
          nth_error (columns df) j = Some c -> ~ In c selected ->
          nth_error cells' j = nth_error cells j).
Proof.
  split; [apply clean_data_columns|].
  intros l cells' Hrow. destruct selected as [|col selected].
  - exists cells'. auto.
  - assert (Hne : col :: selected <> []) by discriminate.
    rewrite (clean_data_rows df _ Hne) in Hrow.
    apply filter_In in Hrow. destruct Hrow as [Hrow _].
    apply in_map_iff in Hrow. destruct Hrow as [[l0 cells] [E Hrow]].
    simpl in E. injection E as -> <-.
    exists cells. split; trivial. split; [apply map_cols_length|].
    intros j c Hj Hc. rewrite (nth_error_map_cols _ _ _ _ _ Hj).
    destruct (nth_error cells j); trivial. cbn [option_map].
    now rewrite cell_after_unselected.
Qed.

(** ** The theorems on the sample tables *)

Lemma clean_data_no_null_like_witness :
  (exists s, PyStr "30" = PyStr s /\ strip s = s /\
             is_null_token s = false /\ is_blank s = false) /\
  (normalize_cell (PyStr "NA") = NA /\
   ~ In 0 (labels (clean_data people [lit "Age"]))).
Proof.
  destruct (clean_data_no_null_like people [lit "Age"]) as [H1 H2]. split.
  - apply (H1 1 [PyStr "Bob"; PyStr "30"] (lit "Age") (PyStr "30"));
      vm_compute; auto.
  - apply (H2 ltac:(repeat constructor; simpl; tauto)
              ltac:(repeat constructor; simpl; intuition discriminate)
              0 [PyStr "Alice"; PyStr "NA"] (lit "Age") (PyStr "NA"));
      vm_compute; auto.
Defined.

Lemma clean_data_row_count_witness :
  length (rows (clean_data people [lit "Age"])) <= length (rows people) /\
  (length (rows (clean_data people [lit "Age"])) = length (rows people) <->
   forall r, In r (rows people) ->
             row_is_null_like (columns people) [lit "Age"] (snd r) = false).
Proof.
  apply (clean_data_row_count people [lit "Age"]).
  repeat constructor; simpl; tauto.
Defined.

Lemma clean_data_frame_witness :
  exists cells,
    In (1, cells) (rows people) /\
    length [PyStr "Bob"; PyStr "30"] = length cells /\
    forall j c,
      nth_error (columns people) j = Some c -> ~ In c [lit "Age"] ->
      nth_error [PyStr "Bob"; PyStr "30"] j = nth_error cells j.
Proof.
  apply (proj2 (clean_data_frame people [lit "Age"]) 1 [PyStr "Bob"; PyStr "30"]).
  vm_compute. auto.
Defined.

(** C10 at a missing date.  The empty cell of a date column is [NaT]; its
    text is [NaT], which no entry of the replacement table matches, so the
    row stays, with the text [NaT] in the cell. *)
Theorem clean_data_keeps_missing_date :
  isna NaT = true /\
  normalize_cell NaT = PyStr "NaT" /\
  rows (clean_data members [lit "Name"; lit "Joined"])
    = [(0, [PyStr "Ann"; PyStr "2024-01-05"]);
       (1, [PyStr "Bob"; PyStr "NaT"])].
Proof. repeat split; vm_compute; reflexivity. Qed.

(** * Further properties *)

(** ** sanitize_name on every name *)

Lemma sanitize_core_cases (x : str) :
  sanitize_core x = [] \/ sanitize_core x <> [].
Proof. destruct (sanitize_core x); [left | right]; congruence. Qed.

(** The result is never empty, holds only word characters, does not start
    with a digit and holds no upper-case letter, whatever the name. *)
Theorem sanitize_name_valid (x : str) :
  sanitize_name x <> [] /\
  forallb is_word (sanitize_name x) = true /\
  starts_with_digit (sanitize_name x) = false /\
  lower (sanitize_name x) = sanitize_name x.
Proof.
  destruct (sanitize_core_cases x) as [E | Hne].
  - rewrite (sanitize_name_fallback x E).
    repeat split; try (vm_compute; reflexivity). discriminate.
  - rewrite sanitize_name_prefixed.
    destruct (prefixed_shape (sanitize_core x) Hne
                (sanitize_core_word x) (sanitize_core_head x)
                (sanitize_core_last x) (sanitize_core_no_double x))
      as [H1 [H2 [_ [H4 _]]]].
    repeat split.
    + intros H. apply lower_nil in H. contradiction.
    + rewrite forallb_lower; [assumption | apply is_word_lower].
    + rewrite <- (head_ok_lower isdigit) in H4 by apply isdigit_lower.
      destruct (lower (prefixed (sanitize_core x))) as [|c r]; trivial.
      simpl in *. now apply negb_true_iff in H4.
    + apply lower_idem.
Qed.

(** A third application never changes the result of the second, and the
    only result a second application changes is the bare fallback [col_],
    which becomes [col]. *)
Theorem sanitize_name_settles (x : str) :
  sanitize_name (sanitize_name (sanitize_name x))
    = sanitize_name (sanitize_name x) /\
  (sanitize_name (sanitize_name x) <> sanitize_name x ->
   sanitize_name x = "col_" /\ sanitize_name (sanitize_name x) = "col").
Proof.
  destruct (sanitize_core_cases x) as [E | Hne].
  - rewrite (sanitize_name_fallback x E). split.
    + vm_compute. reflexivity.
    + intros _. split; vm_compute; reflexivity.
  - split.
    + now rewrite !(sanitize_name_stable x Hne).
    + intros H. destruct H. now apply sanitize_name_stable.
Qed.

Lemma sanitize_name_settles_witness :
  sanitize_name "!?" = "col_" /\ sanitize_name (sanitize_name "!?") = "col".
Proof.
  apply (proj2 (sanitize_name_settles "!?")). vm_compute. discriminate.
Defined.

Lemma dropwhile_lower (p : ascii -> bool) (s : str) :
  (forall c, p (lower_char c) = p c) ->
  dropwhile p (lower s) = lower (dropwhile p s).
Proof.
  intros H. induction s as [|c s IH]; trivial. simpl.
  rewrite H. destruct (p c); [exact IH | reflexivity].
Qed.

Lemma strip_by_lower (p : ascii -> bool) (s : str) :
  (forall c, p (lower_char c) = p c) ->
  strip_by p (lower s) = lower (strip_by p s).
Proof.
  intros H. unfold strip_by, lstrip_by, rstrip_by.
  rewrite (dropwhile_lower p s H). unfold lower at 1.
  rewrite <- map_rev. fold (lower (rev (dropwhile p s))).
  rewrite (dropwhile_lower p _ H). unfold lower. now rewrite map_rev.
Qed.

Lemma lower_underscore : lower_char underscore = underscore.
Proof. vm_compute. reflexivity. Qed.

Lemma sub_nonword_lower (s : str) :
  sub_nonword (lower s) = lower (sub_nonword s).
Proof.
  unfold sub_nonword, lower. rewrite !map_map. apply map_ext. intros c.
  rewrite is_word_lower.
  destruct (is_word c); [reflexivity | symmetry; exact lower_underscore].
Qed.

Lemma collapse_from_lower (s : str) (in_run : bool) :
  collapse_from in_run (lower s) = lower (collapse_from in_run s).
Proof.
  revert in_run. induction s as [|c s IH]; intros in_run; trivial.
  simpl. rewrite is_underscore_lower.
  destruct (is_underscore c); [destruct in_run|]; rewrite IH; trivial.
Qed.

Lemma sanitize_core_lower (x : str) :
  sanitize_core (lower x) = lower (sanitize_core x).
Proof.
  unfold sanitize_core, strip, strip_underscores, collapse_underscores.
  rewrite (strip_by_lower isspace x isspace_lower).
  rewrite sub_nonword_lower, collapse_from_lower.
  apply strip_by_lower, is_underscore_lower.
Qed.

(** Upper and lower case are not told apart: a name and its lower-case
    form get the same identifier, so two columns whose names differ only in
    case collide. *)
Theorem sanitize_name_ignores_case (x : str) :
  sanitize_name (lower x) = sanitize_name x.
Proof.
  rewrite !sanitize_name_prefixed, sanitize_core_lower. unfold prefixed.
  destruct (sanitize_core x) as [|c core]; trivial.
  change (is_empty (lower (c :: core)) || starts_with_digit (lower (c :: core)))
    with (isdigit (lower_char c)).
  change (is_empty (c :: core) || starts_with_digit (c :: core)) with (isdigit c).
  rewrite isdigit_lower. destruct (isdigit c).
  - unfold lower. rewrite !map_app, map_map.
    f_equal. apply map_ext, lower_char_idem.
  - apply lower_idem.
Qed.

(** ** map_dtype_to_sql on every dtype name and dialect *)

(** For any dtype name the type is read from the row of the first keyword
    among int, float, bool, datetime that the name contains: [uint8] and
    [int32] are integers, [datetime64[ns, UTC]] is a timestamp, and a name
    with both int and float counts as an integer. *)
Theorem map_dtype_to_sql_by_keyword (dtype_str : str) (d : sql_dialect) :
  map_dtype_to_sql dtype_str (dialect_name d) = type_table (keyword_row dtype_str) d.
Proof.
  unfold map_dtype_to_sql, keyword_row.
  destruct (contains "int" dtype_str);
    [destruct d; vm_compute; reflexivity|].
  destruct (contains "float" dtype_str);
    [destruct d; vm_compute; reflexivity|].
  destruct (contains "bool" dtype_str);
    [destruct d; vm_compute; reflexivity|].
  destruct (contains "datetime" dtype_str);
    destruct d; vm_compute; reflexivity.
Qed.

(** A dialect text that is none of the three names is not refused: it gets
    INT, DOUBLE PRECISION, BOOLEAN, DATETIME and TEXT. *)
Theorem map_dtype_to_sql_other_dialect (dtype_str dialect : str) :
  dialect <> "mysql" -> dialect <> "postgresql" -> dialect <> "sqlite" ->
  map_dtype_to_sql dtype_str dialect =
  match keyword_row dtype_str with
  | Integer => lit "INT"
  | Floating => lit "DOUBLE PRECISION"
  | Boolean => lit "BOOLEAN"
  | Timestamp => lit "DATETIME"
  | Text => lit "TEXT"
  end.
Proof.
  intros H1 H2 H3. apply str_eqb_neq in H1, H2, H3.
  unfold map_dtype_to_sql, keyword_row. rewrite H1, H2, H3.
  destruct (contains "int" dtype_str); trivial.
  destruct (contains "float" dtype_str); trivial.
  destruct (contains "bool" dtype_str); trivial.
  destruct (contains "datetime" dtype_str); trivial.
Qed.

Lemma map_dtype_to_sql_other_dialect_witness :
  map_dtype_to_sql "float64" "oracle" = lit "DOUBLE PRECISION".
Proof.
  apply (map_dtype_to_sql_other_dialect "float64" "oracle");
    vm_compute; discriminate.
Defined.

(** ** The CREATE statement *)

Lemma col_defs_map (df : DataFrame) (dialect : str) :
  col_defs df dialect
    = map (fun cd => "    " ++ sanitize_name (fst cd) ++ " "
                       ++ map_dtype_to_sql (snd cd) dialect)
          (combine (columns df) (dtypes df)).
Proof. unfold col_defs. now rewrite fold_left_snoc. Qed.

Lemma nth_error_combine {A B : Type} (l : list A) (l' : list B) (j : nat)
    (x : A) (y : B) :
  nth_error l j = Some x -> nth_error l' j = Some y ->
  nth_error (combine l l') j = Some (x, y).
Proof.
  revert l' j. induction l as [|a l IH]; intros [|b l'] [|j] Hx Hy;
    simpl in *; try discriminate.
  - congruence.
  - now apply IH.
Qed.

(** The statement lists one definition per column, in column order: four
    blanks, the sanitized column name, a blank and the mapped type; the
    definitions are separated by a comma and a newline. *)
Theorem create_stmt_columns (df : DataFrame) (table_name dialect : str) :
  length (dtypes df) = length (columns df) ->
  fst (generate_sql df table_name dialect)
    = "CREATE TABLE IF NOT EXISTS " ++ sanitize_name table_name
        ++ [" "%char; "("%char; newline]
        ++ join [","%char; newline] (col_defs df dialect)
        ++ [newline; ")"%char; ";"%char; newline] /\
  length (col_defs df dialect) = length (columns df) /\
  (forall j col dtype_str,
      nth_error (columns df) j = Some col ->
      nth_error (dtypes df) j = Some dtype_str ->
      nth_error (col_defs df dialect) j
        = Some ("    " ++ sanitize_name col ++ " "
                  ++ map_dtype_to_sql dtype_str dialect)).
Proof.
  intros Hlen. split; [reflexivity|]. rewrite col_defs_map. split.
  - rewrite length_map, length_combine. lia.
  - intros j col dtype_str Hc Hd.
    rewrite nth_error_map, (nth_error_combine _ _ _ _ _ Hc Hd). reflexivity.
Qed.

Lemma create_stmt_columns_witness :
  nth_error (col_defs members "mysql") 1 = Some (lit "    joined DATETIME").
Proof.
  destruct (create_stmt_columns members "Members" "mysql") as [_ [_ H]];
    [reflexivity|].
  rewrite (H 1 (lit "Joined") (lit "datetime64[ns]")); reflexivity.
Defined.

(** A table without rows gives an empty INSERT text.  A table without
    columns is not refused: the CREATE statement has an empty column list
    and every row gives an INSERT statement with empty lists. *)
Theorem generate_sql_degenerate (df : DataFrame) (table_name dialect : str) :
  (rows df = [] -> snd (generate_sql df table_name dialect) = []) /\
  (columns df = [] ->
   fst (generate_sql df table_name dialect)
     = "CREATE TABLE IF NOT EXISTS " ++ sanitize_name table_name
         ++ [" "%char; "("%char; newline; newline; ")"%char; ";"%char; newline] /\
   insert_stmts df table_name
     = map (fun _ => "INSERT INTO " ++ sanitize_name table_name ++ " () VALUES ();")
           (rows df)).
Proof.
  split.
  - intros H. unfold generate_sql, insert_stmts, iterrows. cbn [snd].
    now rewrite H.
  - intros H. split.
    + unfold generate_sql, create_stmt, col_defs. simpl. now rewrite H.
    + rewrite insert_stmts_map, H. unfold iterrows. rewrite map_map.
      reflexivity.
Qed.

Lemma generate_sql_degenerate_witness :
  snd (generate_sql (head 0 people) "People" "mysql") = [] /\
  insert_stmts {| columns := []; dtypes := []; rows := [(0, []); (1, [])] |} "t"
    = [lit "INSERT INTO t () VALUES ();"; lit "INSERT INTO t () VALUES ();"].
Proof.
  split.
  - apply (proj1 (generate_sql_degenerate (head 0 people) "People" "mysql")).
    reflexivity.
  - apply (proj2 (generate_sql_degenerate
                    {| columns := []; dtypes := []; rows := [(0, []); (1, [])] |}
                    "t" "mysql")).
    reflexivity.
Defined.

(** The preview shows the CREATE statement of the whole table and its first
    ten INSERT statements. *)
Theorem preview_is_prefix (cleaned_df : DataFrame) (table_name dialect : str) :
  fst (generate_sql (preview_df cleaned_df) table_name dialect)
    = fst (generate_sql cleaned_df table_name dialect) /\
  insert_stmts (preview_df cleaned_df) table_name
    = firstn 10 (insert_stmts cleaned_df table_name) /\
  full_sql (preview_df cleaned_df) table_name dialect
    = fst (generate_sql cleaned_df table_name dialect) ++ [newline]
        ++ join [newline] (firstn 10 (insert_stmts cleaned_df table_name)).
Proof.
  assert (H : insert_stmts (preview_df cleaned_df) table_name
              = firstn 10 (insert_stmts cleaned_df table_name)).
  { rewrite !insert_stmts_map. unfold preview_df, head, iterrows.
    cbn [rows columns dtypes]. now rewrite !firstn_map. }
  split; [reflexivity|]. split; [exact H|].
  unfold full_sql, generate_sql. cbn [fst snd]. now rewrite H.
Qed.

(** ** clean_data: the whole result *)

Lemma map_cols_ext_in {A : Type} (g h : str -> A -> A) (cols : list str)
    (cells : list A) :
  (forall c v, In (c, v) (combine cols cells) -> g c v = h c v) ->
  map_cols g cols cells = map_cols h cols cells.
Proof.
  revert cells. induction cols as [|c cols IH]; intros [|v cells] H; trivial.
  simpl. rewrite (H c v) by now left. f_equal.
  apply IH. intros c' v' Hin. apply H. now right.
Qed.

Lemma filter_map_swap {A B : Type} (f : B -> bool) (g : A -> B) (l : list A) :
  filter f (map g l) = map g (filter (fun x => f (g x)) l).
Proof.
  induction l as [|x l IH]; trivial. simpl.
  destruct (f (g x)); simpl; now rewrite IH.
Qed.

Lemma filter_all {A : Type} (f : A -> bool) (l : list A) :
  (forall x, In x l -> f x = true) -> filter f l = l.
Proof.
  induction l as [|x l IH]; intros H; trivial. simpl.
  rewrite (H x) by now left. f_equal. apply IH.
  intros y Hy. apply H. now right.
Qed.

Lemma map_fix {A : Type} (g : A -> A) (l : list A) :
  (forall x, In x l -> g x = x) -> map g l = l.
Proof.
  induction l as [|x l IH]; intros H; trivial. simpl.
  rewrite (H x) by now left. f_equal. apply IH.
  intros y Hy. apply H. now right.
Qed.

Lemma has_na_nothing (cols : list str) (cells : list value) :
  has_na cols [] cells = false.
Proof.
  unfold has_na. induction (combine cols cells) as [|cv l IH]; trivial.
Qed.

Lemma fold_clean_step_absent (selected : list str) (df : DataFrame) :
  (forall c, In c selected -> ~ In c (columns df)) ->
  fold_left clean_step selected df = df.
Proof.
  induction selected as [|col selected IH]; intros H; trivial.
  simpl. unfold clean_step at 2.
  destruct (mem col (columns df)) eqn:E.
  - apply mem_In in E. destruct (H col); [now left | assumption].
  - apply IH. intros c Hc. apply H. now right.
Qed.

(** Selected names that the table does not have are ignored: a selection
    made only of such names changes nothing. *)
Theorem clean_data_absent_columns (df : DataFrame) (selected : list str) :
  (forall c, In c selected -> ~ In c (columns df)) ->
  clean_data df selected = df.
Proof.
  intros H. destruct selected as [|col selected]; trivial.
  unfold clean_data. rewrite (fold_clean_step_absent (col :: selected) df H).
  assert (E : filter (fun c => mem c (columns df)) (col :: selected) = []).
  { induction (col :: selected) as [|c l IH]; trivial. simpl.
    destruct (mem c (columns df)) eqn:Ec.
    - apply mem_In in Ec. destruct (H c); [now left | assumption].
    - apply IH. intros c' Hc'. apply H. now right. }
  rewrite E. unfold dropna. destruct df as [cols dts rs]. simpl. f_equal.
  apply filter_all. intros r _. now rewrite has_na_nothing.
Qed.

Lemma clean_data_absent_columns_witness :
  clean_data people [lit "Height"; lit "age"] = people.
Proof.
  apply clean_data_absent_columns.
  intros c Hc. vm_compute in Hc. vm_compute.
  intuition (subst; discriminate).
Defined.

Lemma kept_rows (df : DataFrame) (selected : list str) :
  NoDup selected ->
  rows (clean_data df selected)
    = map (fun r => (fst r, normalized_row (columns df) selected (snd r)))
          (filter (fun r => negb (row_is_null_like (columns df) selected (snd r)))
                  (rows df)).
Proof.
  intros Hnd. destruct selected as [|col selected].
  - simpl. rewrite filter_all.
    + symmetry. apply map_fix. intros [l cells] _. simpl. f_equal.
      unfold normalized_row. simpl. apply map_cols_id.
    + intros r _. apply negb_true_iff, row_is_null_like_false.
      intros c v _ [].
  - assert (Hne : col :: selected <> []) by discriminate.
    rewrite (clean_data_rows df _ Hne), filter_map_swap.
    set (sel := col :: selected) in *.
    rewrite (filter_ext _ (fun r => negb (row_is_null_like (columns df) sel (snd r)))).
    2:{ intros r. cbn [snd]. now rewrite has_na_after. }
    apply map_ext_in. intros [l cells] Hin. cbn [fst snd]. f_equal.
    apply filter_In in Hin. destruct Hin as [_ Hkeep]. cbn [snd] in Hkeep.
    apply negb_true_iff in Hkeep. rewrite row_is_null_like_false in Hkeep.
    unfold normalized_row. apply map_cols_ext_in. intros c v Hcv.
    destruct (mem c sel) eqn:E.
    + apply mem_In in E. rewrite cell_after_selected by assumption.
      now rewrite normalize_cell_text, (Hkeep c v Hcv E).
    + apply cell_after_unselected. intros Hc. apply mem_In in Hc. congruence.
Qed.

(** For a selection without repetition the kept rows are the rows without
    null-like text under a selected column, in their order and with their
    labels; in a kept row every cell of a selected column is the stripped
    text of the value, a number included, and the other cells are
    untouched. *)
Theorem clean_data_rows_spec (df : DataFrame) (selected : list str) :
  NoDup selected ->
  rows (clean_data df selected)
    = map (fun r => (fst r, normalized_row (columns df) selected (snd r)))
          (filter (fun r => negb (row_is_null_like (columns df) selected (snd r)))
                  (rows df)).
Proof. apply kept_rows. Qed.

Lemma clean_data_rows_spec_witness :
  rows (clean_data people [lit "Age"]) = [(1, [PyStr "Bob"; PyStr "30"])].
Proof.
  rewrite (clean_data_rows_spec people [lit "Age"]);
    [reflexivity | repeat constructor; simpl; tauto].
Defined.

Lemma kept_labels (df : DataFrame) (selected : list str) :
  NoDup selected ->
  labels (clean_data df selected)
    = map fst (filter (fun r => negb (row_is_null_like (columns df) selected (snd r)))
                      (rows df)).
Proof.
  intros Hnd. unfold labels. rewrite kept_rows by assumption.
  rewrite map_map. reflexivity.
Qed.

(** With distinct row labels a row is kept exactly when none of its cells
    under a selected column has null-like text. *)
Theorem clean_data_keeps_iff (df : DataFrame) (selected : list str)
    (l : nat) (cells : list value) :
  NoDup selected -> NoDup (labels df) ->
  In (l, cells) (rows df) ->
  (In l (labels (clean_data df selected)) <->
   row_is_null_like (columns df) selected cells = false).
Proof.
  intros Hnd Hlab Hrow. rewrite kept_labels by assumption. split.
  - intros H. apply in_map_iff in H. destruct H as [[l' cells'] [E H]].
    simpl in E. subst l'. apply filter_In in H. destruct H as [H Hkeep].
    assert (cells' = cells) by (eapply label_determines_row; eauto). subst.
    now apply negb_true_iff in Hkeep.
  - intros H. apply in_map_iff. exists (l, cells). split; trivial.
    apply filter_In. split; trivial. simpl. now rewrite H.
Qed.

Lemma clean_data_keeps_iff_witness :
  In 1 (labels (clean_data people [lit "Age"])) <->
  row_is_null_like (columns people) [lit "Age"] [PyStr "Bob"; PyStr "30"] = false.
Proof.
  apply (clean_data_keeps_iff people [lit "Age"] 1 [PyStr "Bob"; PyStr "30"]).
  - repeat constructor; simpl; tauto.
  - repeat constructor; simpl; intuition discriminate.
  - simpl. auto.
Defined.

(** A row with an empty cell that reads as float nan, or with None, under a
    selected column is dropped: the texts [nan] and [None] are tokens. *)
Theorem clean_data_drops_nan (df : DataFrame) (selected : list str)
    (l : nat) (cells : list value) (c : str) (v : value) :
  NoDup selected -> NoDup (labels df) ->
  In c selected ->
  In (l, cells) (rows df) ->
  In (c, v) (combine (columns df) cells) ->
  v = NaN \/ v = PyNone ->
  ~ In l (labels (clean_data df selected)).
Proof.
  intros Hnd Hlab Hc Hrow Hcell Hv. rewrite kept_labels by assumption.
  intros H. apply in_map_iff in H. destruct H as [[l' cells'] [E H]].
  simpl in E. subst l'. apply filter_In in H. destruct H as [H Hkeep].
  assert (cells' = cells) by (eapply label_determines_row; eauto). subst.
  cbn [snd] in Hkeep. apply negb_true_iff in Hkeep.
  rewrite row_is_null_like_false in Hkeep.
  specialize (Hkeep c v Hcell Hc).
  destruct Hv as [-> | ->]; vm_compute in Hkeep; discriminate Hkeep.
Qed.

Lemma clean_data_drops_nan_witness :
  ~ In 1 (labels (clean_data
                    {| columns := [lit "Name"; lit "Age"];
                       dtypes := [lit "object"; lit "float64"];
                       rows := [(0, [PyStr "Ann"; PyFloat "41.0"]);
                                (1, [PyStr "Bob"; NaN])] |}
                    [lit "Name"; lit "Age"])).
Proof.
  apply (clean_data_drops_nan _ [lit "Name"; lit "Age"] 1
           [PyStr "Bob"; NaN] (lit "Age") NaN).
  - repeat constructor; simpl; intuition discriminate.
  - repeat constructor; simpl; intuition discriminate.
  - simpl. auto.
  - simpl. auto.
  - simpl. auto.
  - now left.
Defined.

(** ** clean_data: repeated and reordered *)

Lemma dtype_after_mem (selected : list str) (c d : str) :
  dtype_after selected c d = if mem c selected then lit "object" else d.
Proof.
  revert d. induction selected as [|col selected IH]; intros d; trivial.
  change (dtype_after (col :: selected) c d)
    with (dtype_after selected c (if str_eqb c col then lit "object" else d)).
  rewrite IH.
  change (mem c (col :: selected)) with (str_eqb c col || mem c selected).
  destruct (str_eqb c col); simpl; trivial.
  now destruct (mem c selected).
Qed.

Lemma clean_step_dtypes (df : DataFrame) (col : str) :
  dtypes (clean_step df col)
    = map_at (columns df) col (fun _ => lit "object") (dtypes df).
Proof.
  unfold clean_step. destruct (mem col (columns df)) eqn:E; trivial.
  now rewrite map_at_absent.
Qed.

Lemma fold_clean_step_dtypes (selected : list str) (df : DataFrame) :
  dtypes (fold_left clean_step selected df)
    = map_cols (dtype_after selected) (columns df) (dtypes df).
Proof.
  revert df. induction selected as [|col selected IH]; intros df.
  - simpl. unfold dtype_after. simpl. now rewrite map_cols_id.
  - simpl fold_left. rewrite IH, clean_step_columns, clean_step_dtypes.
    rewrite map_at_map_cols, map_cols_compose. reflexivity.
Qed.

Lemma clean_data_dtypes (df : DataFrame) (selected : list str) :
  dtypes (clean_data df selected)
    = map_cols (fun c d => if mem c selected then lit "object" else d)
               (columns df) (dtypes df).
Proof.
  destruct selected as [|col selected].
  - simpl. now rewrite map_cols_id.
  - change (dtypes (clean_data df (col :: selected)))
      with (dtypes (fold_left clean_step (col :: selected) df)).
    rewrite fold_clean_step_dtypes. apply map_cols_ext_in.
    intros c d _. apply dtype_after_mem.
Qed.

Lemma DataFrame_eq (a b : DataFrame) :
  columns a = columns b -> dtypes a = dtypes b -> rows a = rows b -> a = b.
Proof. destruct a, b. simpl. congruence. Qed.

Lemma mem_ext (s s' : list str) (c : str) :
  (forall x, In x s <-> In x s') -> mem c s = mem c s'.
Proof.
  intros H. destruct (mem c s) eqn:E.
  - symmetry. apply mem_In, H, mem_In, E.
  - destruct (mem c s') eqn:E'; trivial.
    apply mem_In, H, mem_In in E'. congruence.
Qed.

(** The selection counts as a set: two selections without repetition that
    hold the same names give the same table, whatever their order. *)
Theorem clean_data_selection_set (df : DataFrame) (selected selected' : list str) :
  NoDup selected -> NoDup selected' ->
  (forall c, In c selected <-> In c selected') ->
  clean_data df selected = clean_data df selected'.
Proof.
  intros Hnd Hnd' Hsame.
  assert (Hmem : forall c, mem c selected = mem c selected')
    by (intros c; now apply mem_ext).
  apply DataFrame_eq.
  - now rewrite !clean_data_columns.
  - rewrite !clean_data_dtypes. apply map_cols_ext_in.
    intros c d _. now rewrite Hmem.
  - rewrite !kept_rows by assumption.
    rewrite (filter_ext _ (fun r => negb (row_is_null_like (columns df) selected' (snd r)))).
    2:{ intros r. f_equal. unfold row_is_null_like. apply existsb_ext_in.
        intros cv _. now rewrite Hmem. }
    apply map_ext. intros r. f_equal. unfold normalized_row.
    apply map_cols_ext_in. intros c v _. now rewrite Hmem.
Qed.

Lemma clean_data_selection_set_witness :
  clean_data people [lit "Name"; lit "Age"] = clean_data people [lit "Age"; lit "Name"].
Proof.
  apply clean_data_selection_set.
  - repeat constructor; simpl; intuition discriminate.
  - repeat constructor; simpl; intuition discriminate.
  - intros c. simpl. tauto.
Defined.

Lemma kept_cell_shape (df : DataFrame) (selected : list str) (l : nat)
    (cells : list value) (c : str) (v : value) :
  In c selected ->
  In (l, cells) (rows (clean_data df selected)) ->
  In (c, v) (combine (columns df) cells) ->
  exists w, v = PyStr (strip (py_str w)) /\ null_like_text (py_str w) = false.
Proof.
  intros Hc Hrow Hcell.
  assert (Hne : selected <> []) by (intros ->; contradiction).
  rewrite (clean_data_rows df selected Hne) in Hrow.
  apply filter_In in Hrow. destruct Hrow as [Hrow Hkeep].
  apply in_map_iff in Hrow. destruct Hrow as [[l0 cells0] [E Hrow]].
  cbn [fst snd] in E. injection E as -> <-.
  cbn [snd] in Hkeep. apply negb_true_iff in Hkeep.
  rewrite combine_map_cols in Hcell. apply in_map_iff in Hcell.
  destruct Hcell as [[c0 v0] [E Hcell]]. cbn [fst snd] in E.
  injection E as -> <-.
  destruct (cell_after_normalized selected c v0 Hc) as [E | [w [E Hw]]].
  - exfalso. unfold has_na in Hkeep.
    rewrite combine_map_cols, existsb_map in Hkeep.
    assert (Hex : existsb
              (fun x => mem (fst x) (filter (fun col => mem col (columns df)) selected)
                        && isna (cell_after selected (fst x) (snd x)))
              (combine (columns df) cells0) = true).
    { apply existsb_exists. exists (c, v0). split; trivial. cbn [fst snd].
      rewrite E, andb_true_r.
      rewrite mem_filter_present; apply mem_In; trivial.
      now apply in_combine_l in Hcell. }
    cbn [fst snd] in Hkeep. congruence.
  - now exists w.
Qed.

Lemma null_like_text_strip (t : str) :
  null_like_text (strip t) = null_like_text t.
Proof.
  rewrite <- !null_like_strip. unfold strip. now rewrite strip_by_idem.
Qed.

Lemma normalize_cell_kept (w : str) :
  null_like_text w = false ->
  normalize_cell (PyStr (strip w)) = PyStr (strip w).
Proof.
  intros H. rewrite normalize_cell_text. cbn [py_str].
  rewrite null_like_text_strip, H. unfold strip. now rewrite strip_by_idem.
Qed.

Lemma cell_after_fix (selected : list str) (c : str) (v : value) :
  normalize_cell v = v -> cell_after selected c v = v.
Proof.
  intros H. induction selected as [|col selected IH]; trivial.
  unfold cell_after. simpl fold_left.
  destruct (str_eqb c col); [rewrite H|]; exact IH.
Qed.

(** Cleaning a cleaned table again with the same selection changes
    nothing, whatever the selection. *)
Theorem clean_data_idempotent (df : DataFrame) (selected : list str) :
  clean_data (clean_data df selected) selected = clean_data df selected.
Proof.
  destruct selected as [|col selected]; trivial.
  set (sel := col :: selected).
  assert (Hne : sel <> []) by discriminate.
  apply DataFrame_eq.
  - now rewrite !clean_data_columns.
  - rewrite clean_data_dtypes, clean_data_columns, clean_data_dtypes.
    rewrite map_cols_compose. apply map_cols_ext_in.
    intros c d _. now destruct (mem c sel).
  - rewrite (clean_data_rows (clean_data df sel) sel Hne), clean_data_columns.
    assert (Hfix : forall r, In r (rows (clean_data df sel)) ->
              (fst r, map_cols (cell_after sel) (columns df) (snd r)) = r).
    { intros [l cells] Hr. cbn [fst snd]. f_equal.
      rewrite <- (map_cols_id (columns df) cells) at 2.
      apply map_cols_ext_in. intros c v Hcv.
      destruct (in_dec (list_eq_dec ascii_dec) c sel) as [Hc | Hc].
      - destruct (kept_cell_shape df sel l cells c v Hc Hr Hcv) as [w [-> Hw]].
        apply cell_after_fix. now apply normalize_cell_kept.
      - now apply cell_after_unselected. }
    rewrite (map_ext_in _ (fun r => r) _ Hfix), map_id.
    apply filter_all. intros [l cells] Hr. cbn [snd].
    apply negb_true_iff. unfold has_na.
    destruct (existsb _ _) eqn:E; trivial.
    apply existsb_exists in E. destruct E as [[c v] [Hcv E]].
    cbn [fst snd] in E. apply andb_true_iff in E. destruct E as [E1 E2].
    apply mem_In, filter_In in E1. destruct E1 as [Hc _].
    destruct (kept_cell_shape df sel l cells c v Hc Hr Hcv) as [w [-> _]].
    discriminate E2.
Qed.

(** ** From the cleaned table to the statements *)

(** A cell of a selected column that survives cleaning is written in
    quotes, never as NULL and never as a bare number: with every column
    selected, as the page proposes, every value of every INSERT statement
    is a quoted text. *)
Theorem cleaned_cell_quoted (df : DataFrame) (selected : list str) (l : nat)
    (cells : list value) (c : str) (v : value) :
  In c selected ->
  In (l, cells) (rows (clean_data df selected)) ->
  In (c, v) (combine (columns df) cells) ->
  exists s,
    v = PyStr s /\ strip s = s /\
    sql_value v = [quote] ++ double_quotes s ++ [quote].
Proof.
  intros Hc Hrow Hcell.
  destruct (kept_cell_shape df selected l cells c v Hc Hrow Hcell) as [w [-> _]].
  exists (strip (py_str w)). split; trivial. split; [apply strip_by_idem|].
  now rewrite sql_value_cell_text.
Qed.

Lemma cleaned_cell_quoted_witness :
  exists s,
    PyStr "41" = PyStr s /\ strip s = s /\
    sql_value (PyStr "41") = [quote] ++ double_quotes s ++ [quote].
Proof.
  apply (cleaned_cell_quoted
           {| columns := [lit "Name"; lit "Age"];
              dtypes := [lit "object"; lit "int64"];
              rows := [(0, [PyStr "Ann"; PyInt 41])] |}
           [lit "Name"; lit "Age"] 0 [PyStr "Ann"; PyStr "41"] (lit "Age"));
    vm_compute; auto.
Defined.

(** ** Download names *)

Lemma before_last_dot_none (s : str) :
  no_dot s = true -> before_last_dot s = None.
Proof.
  induction s as [|c s IH]; trivial. simpl. intros H.
  apply andb_true_iff in H. destruct H as [H1 H2].
  rewrite (IH H2). apply negb_true_iff in H1. now rewrite H1.
Qed.

Lemma before_last_dot_app (base ext : str) :
  no_dot ext = true -> before_last_dot (base ++ dot :: ext) = Some base.
Proof.
  intros H. induction base as [|c base IH].
  - simpl. now rewrite (before_last_dot_none ext H).
  - simpl. now rewrite IH.
Qed.

(** The label of a download is the name of the uploaded file without its
    extension, dots in the rest of the name kept; a name without a dot is
    its own label.  The sheet name is added only for a workbook with more
    than one sheet. *)
Theorem download_names (base ext : str) (sheet_names : list str)
    (selected_sheet : str) :
  no_dot ext = true ->
  file_label (base ++ dot :: ext) = base /\
  (no_dot base = true -> file_label base = base) /\
  json_file_name (base ++ dot :: ext) sheet_names selected_sheet
    = base ++ (if Nat.ltb 1 (length sheet_names) then "_" ++ selected_sheet else [])
        ++ "_cleaned.json" /\
  sql_file_name (base ++ dot :: ext) sheet_names selected_sheet
    = base ++ (if Nat.ltb 1 (length sheet_names) then "_" ++ selected_sheet else [])
        ++ ".sql".
Proof.
  intros H.
  assert (E : file_label (base ++ dot :: ext) = base)
    by (unfold file_label; now rewrite before_last_dot_app).
  split; [exact E|]. split.
  - intros Hb. unfold file_label. now rewrite before_last_dot_none.
  - unfold json_file_name, sql_file_name, sheet_suffix. now rewrite E.
Qed.

Lemma download_names_witness :
  json_file_name "report.v2.xlsx" [lit "Q1"; lit "Q2"] "Q1"
    = lit "report.v2_Q1_cleaned.json" /\
  sql_file_name "report.v2.xlsx" [lit "Q1"] "Q1" = lit "report.v2.sql".
Proof.
  split.
  - apply (proj1 (proj2 (proj2
      (download_names "report.v2" "xlsx" [lit "Q1"; lit "Q2"] "Q1" eq_refl)))).
  - apply (proj2 (proj2 (proj2
      (download_names "report.v2" "xlsx" [lit "Q1"] "Q1" eq_refl)))).
Defined.

(** ** The row statistics of the page *)

Lemma existsb_false_all {A : Type} (f : A -> bool) (l : list A) :
  existsb f l = false <-> forall x, In x l -> f x = false.
Proof.
  split.
  - intros H x Hx. destruct (f x) eqn:E; trivial.
    rewrite <- H. symmetry. apply existsb_exists. now exists x.
  - intros H. destruct (existsb f l) eqn:E; trivial.
    apply existsb_exists in E. destruct E as [x [Hx E]].
    rewrite (H x Hx) in E. discriminate E.
Qed.

(** The number of dropped rows is never negative and never more than the
    number of rows; for a selection without repetition the warning about
    removed rows is shown exactly when some row holds null-like text under
    a selected column. *)
Theorem rows_dropped_warning (df : DataFrame) (selected : list str) :
  NoDup selected ->
  (0 <= rows_dropped df (clean_data df selected)
     <= Z.of_nat (length (rows df)))%Z /\
  warns df (clean_data df selected)
    = existsb (fun r => row_is_null_like (columns df) selected (snd r)) (rows df).
Proof.
  intros Hnd. unfold warns, rows_dropped.
  rewrite kept_rows by assumption. rewrite length_map.
  set (keep := fun r : nat * list value =>
                 negb (row_is_null_like (columns df) selected (snd r))).
  pose proof (filter_length_le keep (rows df)) as Hle.
  split; [lia|].
  destruct (existsb _ (rows df)) eqn:E.
  - apply Z.ltb_lt.
    assert (Hneq : length (filter keep (rows df)) <> length (rows df)).
    { intros Heq.
      pose proof (proj1 (filter_length_all keep (rows df)) Heq) as Hall.
      apply existsb_exists in E. destruct E as [r [Hr E]].
      specialize (Hall r Hr). unfold keep in Hall. rewrite E in Hall.
      discriminate Hall. }
    lia.
  - apply Z.ltb_ge.
    assert (Heq : length (filter keep (rows df)) = length (rows df)).
    { apply (proj2 (filter_length_all keep (rows df))).
      intros r Hr. unfold keep.
      rewrite existsb_false_all in E. now rewrite (E r Hr). }
    lia.
Qed.

Lemma rows_dropped_warning_witness :
  (0 <= rows_dropped people (clean_data people [lit "Age"])
     <= Z.of_nat (length (rows people)))%Z /\
  warns people (clean_data people [lit "Age"])
    = existsb (fun r => row_is_null_like (columns people) [lit "Age"] (snd r))
              (rows people).
Proof.
  apply (rows_dropped_warning people [lit "Age"]).
  repeat constructor; simpl; tauto.
Defined.

(** ** The start button *)

Lemma run_snoc (st : session_state) (inputs : list (bool * str))
    (input : bool * str) :
  run st (inputs ++ [input])
    = fst (rerun (run st inputs) (fst input) (snd input)).
Proof. unfold run. now rewrite fold_left_app. Qed.

Lemma run_state (inputs : list (bool * str)) :
  run new_session inputs
    = match last_click inputs with
      | Some sheet => {| process_started := true; process_sheet := Some sheet |}
      | None => new_session
      end.
Proof.
  induction inputs as [|[clicked sheet] inputs IH] using rev_ind; trivial.
  rewrite run_snoc, IH. unfold last_click. rewrite fold_left_app. simpl.
  destruct clicked; trivial.
Qed.

(** Across any sequence of runs the processing runs exactly when the
    button has been pressed at least once and the sheet selected now is the
    sheet that was selected at the last press. *)
Theorem processing_gate (inputs : list (bool * str)) (clicked : bool)
    (selected_sheet : str) :
  snd (rerun (run new_session inputs) clicked selected_sheet)
    = match last_click (inputs ++ [(clicked, selected_sheet)]) with
      | Some sheet => str_eqb sheet selected_sheet
      | None => false
      end /\
  snd (rerun (run new_session inputs) true selected_sheet) = true.
Proof.
  split; [|simpl; apply str_eqb_refl].
  rewrite run_state. unfold last_click at 2. rewrite fold_left_app. simpl.
  fold (last_click inputs).
  destruct clicked; simpl.
  - reflexivity.
  - destruct (last_click inputs); reflexivity.
Qed.
